(** * Thumbnail Zone: the gallery page and the critique flow

    A shallow embedding of the gallery page component (upload, edit, delete,
    download, filter) and of the critique flow's output schema, with the
    properties the design document states about them.

    JavaScript strings are sequences of UTF-16 code units; the document store,
    the file reader and the clock are outside the program and appear as an
    environment whose answers the handlers consume. *)

From Stdlib Require Import ZArith QArith List Bool Lia String Ascii Sorted.
Import ListNotations.

Local Open Scope Z_scope.
Local Open Scope bool_scope.

(* ===================================================================== *)
(** ** JavaScript strings *)
(* ===================================================================== *)

Module Js.

(** A string value: its UTF-16 code units, each in [0, 65536). *)
Definition jsstring := list Z.

(** An ASCII literal as a string value. *)
Definition str (s : string) : jsstring :=
  map (fun a => Z.of_N (N_of_ascii a)) (list_ascii_of_string s).

(** [===] on two strings. *)
Fixpoint eqb (a b : jsstring) : bool :=
  match a, b with
  | [], [] => true
  | x :: a', y :: b' => (x =? y) && eqb a' b'
  | _, _ => false
  end.

(** [s.length]: the number of code units. *)
Definition length (s : jsstring) : Z := Z.of_nat (List.length s).

(** [s.startsWith(p)]. *)
Fixpoint startsWith (p s : jsstring) : bool :=
  match p, s with
  | [], _ => true
  | _ :: _, [] => false
  | a :: p', b :: s' => (a =? b) && startsWith p' s'
  end.

(** [s.includes(needle)]: [needle] occurs at some position of [s]. *)
Fixpoint includes (s needle : jsstring) : bool :=
  startsWith needle s
  || match s with
     | [] => false
     | _ :: r => includes r needle
     end.

(** [s.split(sep)] for a separator of one code unit: the pieces between the
    occurrences of [sep], in order; never an empty array. *)
Fixpoint split (sep : Z) (s : jsstring) : list jsstring :=
  match s with
  | [] => [[]]
  | c :: r =>
      if c =? sep then [] :: split sep r
      else match split sep r with
           | w :: ws => (c :: w) :: ws
           | [] => [[c]]
           end
  end.

(** What the regular expression class [\s] matches: the white space and
    line terminator code points, all of one code unit. *)
Definition isWhiteSpace (c : Z) : bool :=
  ((0x09 <=? c) && (c <=? 0x0D))
  || (c =? 0x20) || (c =? 0xA0) || (c =? 0x1680)
  || ((0x2000 <=? c) && (c <=? 0x200A))
  || (c =? 0x2028) || (c =? 0x2029) || (c =? 0x202F)
  || (c =? 0x205F) || (c =? 0x3000) || (c =? 0xFEFF).

(** [s.replace(/\s+/g, r)]: scanning left to right, the longest run of
    white space starting at the current position is replaced by [r];
    [inRun] says that the previous code unit belonged to a run that has
    already been replaced. *)
Fixpoint replaceWsFrom (inRun : bool) (r s : jsstring) : jsstring :=
  match s with
  | [] => []
  | c :: s' =>
      if isWhiteSpace c
      then (if inRun then [] else r) ++ replaceWsFrom true r s'
      else c :: replaceWsFrom false r s'
  end.

Definition replaceWhiteSpaceRuns (s r : jsstring) : jsstring :=
  replaceWsFrom false r s.

Definition isHighSurrogate (c : Z) : bool := (0xD800 <=? c) && (c <=? 0xDBFF).
Definition isLowSurrogate (c : Z) : bool := (0xDC00 <=? c) && (c <=? 0xDFFF).

(** The size of [new Blob([s])]: the number of bytes of the UTF-8 encoding
    of [s]. A surrogate pair is one code point of four bytes; a surrogate on
    its own is encoded as U+FFFD, three bytes. *)
Fixpoint blobSize (s : jsstring) : Z :=
  match s with
  | [] => 0
  | c :: r =>
      if c <? 0x80 then 1 + blobSize r
      else if c <? 0x800 then 2 + blobSize r
      else if isHighSurrogate c then
        match r with
        | d :: r' => if isLowSurrogate d then 4 + blobSize r' else 3 + blobSize r
        | [] => 3
        end
      else 3 + blobSize r
  end.

End Js.

Export Js(jsstring, str).

(** A value of the [||] operator's left side that is a string or
    [undefined]: the empty string and [undefined] are falsy. *)
Definition orElse (v : option jsstring) (dflt : jsstring) : jsstring :=
  match v with
  | Some ((_ :: _) as s) => s
  | _ => dflt
  end.

(* ===================================================================== *)
(** ** Data model and constants *)
(* ===================================================================== *)

(** Firestore's 1 MiB limit, with a small buffer. *)
Definition MAX_DOC_SIZE_BYTES : Z := 1048487.

(** The number literal [0.7] is the double nearest to seven tenths,
    3152519739159347 / 2^52; the two products by 1024 are exact in binary
    floating point, so the constants are these rationals. *)
Definition MAX_IMAGE_FILE_SIZE_MB : Q := 3152519739159347 # 4503599627370496.
Definition MAX_IMAGE_FILE_SIZE_BYTES : Q :=
  (MAX_IMAGE_FILE_SIZE_MB * inject_Z 1024 * inject_Z 1024)%Q.

Record Thumbnail := mkThumbnail {
  id : jsstring;
  title : jsstring;
  category : jsstring;
  imageUrl : jsstring;   (* a Base64 data URI *)
  createdAt : Z          (* a Date, as milliseconds since the epoch *)
}.

Definition categories : list jsstring :=
  [str "All"; str "Gaming"; str "Vlog"; str "Tutorial"; str "Lifestyle";
   str "Tech"; str "Cooking"; str "Education"].

(** The items both category selects render:
    [categories.filter(c => c !== 'All')]. *)
Definition selectItems : list jsstring :=
  filter (fun c => negb (Js.eqb c (str "All"))) categories.

(** A file chosen in the file input. *)
Record File := mkFile {
  name : jsstring;
  size : Z
}.

(** What a [throw] or a rejected promise carries: an [Error] with its
    message, or a value that is not an [Error] (the file reader rejects with
    its progress event). *)
Inductive Thrown :=
| ErrorObject (message : jsstring)
| NotAnError.

(* ===================================================================== *)
(** ** Form schemas *)
(* ===================================================================== *)

Record Issue := mkIssue {
  path : jsstring;
  issueMessage : jsstring
}.

(** The upload form's fields as the resolver receives them: the title input
    holds a string (default [""]), the category is [undefined] until one is
    selected, the image is the input's file list or [undefined]. *)
Record UploadInput := mkUploadInput {
  in_title : jsstring;
  in_category : option jsstring;
  in_image : option (list File)
}.

(** [z.infer<typeof uploadSchema>]; [image] is [z.any()] and keeps the
    value it was given. *)
Record UploadValues := mkUploadValues {
  u_title : jsstring;
  u_category : jsstring;
  u_image : option (list File)
}.

Record EditInput := mkEditInput {
  ein_title : jsstring;
  ein_category : option jsstring
}.

Record EditValues := mkEditValues {
  e_title : jsstring;
  e_category : jsstring
}.

Definition issuesOf {A} (r : list Issue + A) : list Issue :=
  match r with
  | inl issues => issues
  | inr _ => []
  end.

(** [z.string().min(3, { message })]. *)
Definition titleField (v : jsstring) : list Issue + jsstring :=
  if 3 <=? Js.length v then inr v
  else inl [mkIssue (str "title") (str "Title must be at least 3 characters.")].

(** [z.string({ required_error })]: any string passes. *)
Definition categoryField (v : option jsstring) : list Issue + jsstring :=
  match v with
  | Some c => inr c
  | None => inl [mkIssue (str "category") (str "Please select a category.")]
  end.

(** [files?.length == 1]. *)
Definition imageIsPresent (files : option (list File)) : bool :=
  match files with
  | Some fs => (List.length fs =? 1)%nat
  | None => false
  end.

(** [files?.[0]?.size <= MAX_IMAGE_FILE_SIZE_BYTES]; a comparison with
    [undefined] is false. *)
Definition imageIsSmallEnough (files : option (list File)) : bool :=
  match files with
  | Some (f :: _) => Qle_bool (inject_Z (size f)) MAX_IMAGE_FILE_SIZE_BYTES
  | _ => false
  end.

(** [z.any().refine(..., "Image is required.").refine(..., `Image must be
    less than ${MAX_IMAGE_FILE_SIZE_MB}MB.`)]: both refinements are
    evaluated and each failure adds its issue. *)
Definition imageField (v : option (list File))
  : list Issue + option (list File) :=
  let required :=
    if imageIsPresent v then []
    else [mkIssue (str "image") (str "Image is required.")] in
  let tooBig :=
    if imageIsSmallEnough v then []
    else [mkIssue (str "image") (str "Image must be less than 0.7MB.")] in
  match required ++ tooBig with
  | [] => inr v
  | issues => inl issues
  end.

Definition uploadSchema (raw : UploadInput) : list Issue + UploadValues :=
  match titleField (in_title raw), categoryField (in_category raw),
        imageField (in_image raw) with
  | inr t, inr c, inr i => inr (mkUploadValues t c i)
  | rt, rc, ri => inl (issuesOf rt ++ issuesOf rc ++ issuesOf ri)
  end.

Definition editSchema (raw : EditInput) : list Issue + EditValues :=
  match titleField (ein_title raw), categoryField (ein_category raw) with
  | inr t, inr c => inr (mkEditValues t c)
  | rt, rc => inl (issuesOf rt ++ issuesOf rc)
  end.

(* ===================================================================== *)
(** ** The component's state and what it talks to *)
(* ===================================================================== *)

(** The object passed to [addDoc]. *)
Record NewThumbnailData := mkNewThumbnailData {
  d_title : jsstring;
  d_category : jsstring;
  d_imageUrl : jsstring;
  d_createdAt : Z
}.

(** The requests the page sends to the document store. *)
Inductive StoreCall :=
| GetDocs
| AddDoc (data : NewThumbnailData)
| UpdateDoc (docId : jsstring) (newTitle newCategory : jsstring)
| DeleteDoc (docId : jsstring).

Inductive ToastVariant := DefaultVariant | Destructive.

Record Toast := mkToast {
  toastTitle : jsstring;
  description : jsstring;
  variant : ToastVariant
}.

(** The answers of the outside world: the file reader, the clock and the
    document store. A store answer [inl e] is a rejected promise. *)
Record Env := mkEnv {
  env_readAsDataURL : File -> option jsstring;
  env_now : Z;
  env_getDocs : Thrown + list Thumbnail;
  env_addDoc : NewThumbnailData -> Thrown + jsstring;
  env_updateDoc : jsstring -> jsstring -> jsstring -> Thrown + unit;
  env_deleteDoc : jsstring -> Thrown + unit
}.

(** The [useState] cells of [Home], the toasts shown, and the trace of
    requests made to the store and to the file reader. The two forms keep
    their field values and errors in the form library, outside this state. *)
Record State := mkState {
  thumbnails : list Thumbnail;
  isUploadDialogOpen : bool;
  isEditDialogOpen : bool;
  editingThumbnail : option Thumbnail;
  imagePreview : option jsstring;
  isUploading : bool;
  uploadProgress : Z;
  toasts : list Toast;
  storeCalls : list StoreCall;
  fileReads : list File
}.

Definition initialState : State :=
  mkState [] false false None None false 0 [] [] [].

(** A statement either completes or throws; the state it reached is kept in
    both cases. *)
Inductive Completion (A : Type) :=
| Normal (a : A)
| Throw (e : Thrown).
Arguments Normal {A} a.
Arguments Throw {A} e.

Definition M (A : Type) : Type := State -> Completion A * State.

Definition ret {A} (a : A) : M A := fun st => (Normal a, st).

Definition bind {A B} (m : M A) (k : A -> M B) : M B :=
  fun st =>
    match m st with
    | (Normal a, st') => k a st'
    | (Throw e, st') => (Throw e, st')
    end.

Definition throw {A} (e : Thrown) : M A := fun st => (Throw e, st).

(** [try { body } catch (error) { handler } finally { cleanup }]. *)
Definition tryCatchFinally {A} (body : M A) (handler : Thrown -> M A)
    (cleanup : M unit) : M A :=
  fun st =>
    let '(r, st1) :=
      match body st with
      | (Normal a, st') => (Normal a, st')
      | (Throw e, st') => handler e st'
      end in
    match cleanup st1 with
    | (Normal _, st2) => (r, st2)
    | (Throw e, st2) => (Throw e, st2)
    end.

Definition tryCatch {A} (body : M A) (handler : Thrown -> M A) : M A :=
  tryCatchFinally body handler (ret tt).

Declare Scope js_scope.
Delimit Scope js_scope with js.
Notation "x <- m ;; k" := (bind m (fun x => k))
  (at level 61, m at next level, right associativity) : js_scope.
Notation "m ;; k" := (bind m (fun _ => k))
  (at level 61, right associativity) : js_scope.

(** The state a statement leaves, and whether it completed. *)
Definition exec {A} (m : M A) (st : State) : State := snd (m st).
Definition completes {A} (m : M A) (st : State) : bool :=
  match fst (m st) with
  | Normal _ => true
  | Throw _ => false
  end.

Definition update (f : State -> State) : M unit := fun st => (Normal tt, f st).

Definition setThumbnails (v : list Thumbnail) : M unit :=
  update (fun s => mkState v (isUploadDialogOpen s) (isEditDialogOpen s)
    (editingThumbnail s) (imagePreview s) (isUploading s) (uploadProgress s)
    (toasts s) (storeCalls s) (fileReads s)).
Definition setIsUploadDialogOpen (v : bool) : M unit :=
  update (fun s => mkState (thumbnails s) v (isEditDialogOpen s)
    (editingThumbnail s) (imagePreview s) (isUploading s) (uploadProgress s)
    (toasts s) (storeCalls s) (fileReads s)).
Definition setIsEditDialogOpen (v : bool) : M unit :=
  update (fun s => mkState (thumbnails s) (isUploadDialogOpen s) v
    (editingThumbnail s) (imagePreview s) (isUploading s) (uploadProgress s)
    (toasts s) (storeCalls s) (fileReads s)).
Definition setEditingThumbnail (v : option Thumbnail) : M unit :=
  update (fun s => mkState (thumbnails s) (isUploadDialogOpen s)
    (isEditDialogOpen s) v (imagePreview s) (isUploading s) (uploadProgress s)
    (toasts s) (storeCalls s) (fileReads s)).
Definition setImagePreview (v : option jsstring) : M unit :=
  update (fun s => mkState (thumbnails s) (isUploadDialogOpen s)
    (isEditDialogOpen s) (editingThumbnail s) v (isUploading s)
    (uploadProgress s) (toasts s) (storeCalls s) (fileReads s)).
Definition setIsUploading (v : bool) : M unit :=
  update (fun s => mkState (thumbnails s) (isUploadDialogOpen s)
    (isEditDialogOpen s) (editingThumbnail s) (imagePreview s) v
    (uploadProgress s) (toasts s) (storeCalls s) (fileReads s)).
Definition setUploadProgress (v : Z) : M unit :=
  update (fun s => mkState (thumbnails s) (isUploadDialogOpen s)
    (isEditDialogOpen s) (editingThumbnail s) (imagePreview s) (isUploading s)
    v (toasts s) (storeCalls s) (fileReads s)).
Definition toast (t : Toast) : M unit :=
  update (fun s => mkState (thumbnails s) (isUploadDialogOpen s)
    (isEditDialogOpen s) (editingThumbnail s) (imagePreview s) (isUploading s)
    (uploadProgress s) (toasts s ++ [t]) (storeCalls s)
    (fileReads s)).
Definition logStoreCall (c : StoreCall) : M unit :=
  update (fun s => mkState (thumbnails s) (isUploadDialogOpen s)
    (isEditDialogOpen s) (editingThumbnail s) (imagePreview s) (isUploading s)
    (uploadProgress s) (toasts s) (storeCalls s ++ [c])
    (fileReads s)).
Definition logFileRead (f : File) : M unit :=
  update (fun s => mkState (thumbnails s) (isUploadDialogOpen s)
    (isEditDialogOpen s) (editingThumbnail s) (imagePreview s) (isUploading s)
    (uploadProgress s) (toasts s) (storeCalls s)
    (fileReads s ++ [f])).

(** An awaited promise: its value, or its rejection thrown. *)
Definition await {A} (r : Thrown + A) : M A :=
  match r with
  | inr a => ret a
  | inl e => throw e
  end.

(* ===================================================================== *)
(** ** The page component [Home] *)
(* ===================================================================== *)

Local Open Scope js_scope.

(** The double quote character of the template literals. *)
Definition dquote : jsstring := [34].

(** The anchor element [handleDownload] builds and clicks. *)
Record Anchor := mkAnchor {
  href : jsstring;
  download : jsstring
}.

Section Home.

(** [String.prototype.toLowerCase], the Unicode lower-casing of the
    platform. *)
Variable toLowerCase : jsstring -> jsstring.

Variable env : Env.

(** Helper to get byte length of a string. *)
Definition getByteLength (s : jsstring) : Z := Js.blobSize s.

(** Helper function to convert a file to a Base64 data URI; the reader's
    [onerror] rejects with the event it received. *)
Definition toBase64 (file : File) : M jsstring :=
  logFileRead file ;;
  match env_readAsDataURL env file with
  | Some result => ret result
  | None => throw NotAnError
  end.

Definition addDoc (data : NewThumbnailData) : M jsstring :=
  logStoreCall (AddDoc data) ;; await (env_addDoc env data).

Definition updateDoc (docId newTitle newCategory : jsstring) : M unit :=
  logStoreCall (UpdateDoc docId newTitle newCategory) ;;
  await (env_updateDoc env docId newTitle newCategory).

Definition deleteDoc (docId : jsstring) : M unit :=
  logStoreCall (DeleteDoc docId) ;; await (env_deleteDoc env docId).

Definition getDocs : M (list Thumbnail) :=
  logStoreCall GetDocs ;; await (env_getDocs env).

(** The effect run once after the first render. *)
Definition fetchThumbnails : M unit :=
  tryCatch
    (fetchedThumbnails <- getDocs ;;
     setThumbnails fetchedThumbnails)
    (fun _ =>
       toast (mkToast (str "Loading Failed")
         (str "Could not fetch thumbnails. Make sure Firestore is set up correctly.")
         Destructive)).

(** [uploadForm.reset()] and [editForm.reset()] act on the form library's
    own state and leave the cells of [State] alone. *)
Definition handleUploadDialogClose : M unit :=
  setIsUploadDialogOpen false ;;
  setImagePreview None.

Definition handleEditDialogOpen (thumbnail : Thumbnail) : M unit :=
  setEditingThumbnail (Some thumbnail) ;;
  setIsEditDialogOpen true.

Definition handleEditDialogClose : M unit :=
  setIsEditDialogOpen false ;;
  setEditingThumbnail None.

(** The [onChange] of the file input: the chosen file is read once more,
    on its own reader, for the preview; that reader has no [onerror]. *)
Definition onImageChange (files : option (list File)) : M unit :=
  match files with
  | Some (file :: _) =>
      logFileRead file ;;
      match env_readAsDataURL env file with
      | Some result => setImagePreview (Some result)
      | None => ret tt
      end
  | _ => setImagePreview None
  end.

(** The handlers below are closures of one render: [thumbnails] and
    [editingThumbnail] are the values of that render. *)
Section Render.

Variable thumbnails : list Thumbnail.
Variable editingThumbnail : option Thumbnail.

Definition handleDelete (thumbnailId thumbnailTitle : jsstring) : M unit :=
  tryCatch
    (deleteDoc thumbnailId ;;
     setThumbnails
       (filter (fun t => negb (Js.eqb (id t) thumbnailId)) thumbnails) ;;
     toast (mkToast (str "Deleted!")
       (str "Thumbnail " ++ dquote ++ thumbnailTitle ++ dquote
          ++ str " has been removed.")
       DefaultVariant))
    (fun _ =>
       toast (mkToast (str "Delete Failed")
         (str "There was an error deleting the thumbnail. Please try again.")
         Destructive)).

Definition tooLargeMessage : jsstring :=
  str "The selected image is too large (over 1MB after encoding). Please choose a smaller file.".

(** The [catch] block of [onUploadSubmit]. *)
Definition uploadFailed (error : Thrown) : M unit :=
  let errorMessage :=
    match error with
    | ErrorObject message => message
    | NotAnError => str "An unknown error occurred."
    end in
  let toastDescription :=
    if Js.includes errorMessage (str "too large") then errorMessage
    else if Js.includes (toLowerCase errorMessage) (str "firestore")
    then str "Error communicating with the database. Please check your connection and Firestore setup."
    else str "There was an error uploading your thumbnail. Please try again." in
  toast (mkToast (str "Upload Failed") toastDescription Destructive).

Definition onUploadSubmit (values : UploadValues) : M unit :=
  match u_image values with
  | None =>
      (* values.image[0] on undefined *)
      throw (ErrorObject (str "Cannot read properties of undefined (reading '0')"))
  | Some files =>
      match nth_error files 0 with
      | None => ret tt
      | Some file =>
          setIsUploading true ;;
          setUploadProgress 0 ;;
          tryCatchFinally
            (setUploadProgress 30 ;;
             imageDataUrl <- toBase64 file ;;
             setUploadProgress 60 ;;
             (* Final check: the generated Base64 string is under
                Firestore's limit *)
             (if getByteLength imageDataUrl >? MAX_DOC_SIZE_BYTES
              then throw (ErrorObject tooLargeMessage)
              else ret tt) ;;
             let newThumbnailData :=
               mkNewThumbnailData (u_title values) (u_category values)
                 imageDataUrl (env_now env) in
             setUploadProgress 80 ;;
             docRefId <- addDoc newThumbnailData ;;
             let newThumbnail :=
               mkThumbnail docRefId (d_title newThumbnailData)
                 (d_category newThumbnailData)
                 (d_imageUrl newThumbnailData)
                 (d_createdAt newThumbnailData) in
             setThumbnails (newThumbnail :: thumbnails) ;;
             setUploadProgress 100 ;;
             toast (mkToast (str "Success!")
               (str "Thumbnail " ++ dquote ++ u_title values ++ dquote
                  ++ str " has been added.")
               DefaultVariant) ;;
             handleUploadDialogClose)
            uploadFailed
            (setIsUploading false ;;
             setUploadProgress 0)
      end
  end.

Definition onEditSubmit (values : EditValues) : M unit :=
  match editingThumbnail with
  | None => ret tt
  | Some editing =>
      tryCatch
        (updateDoc (id editing) (e_title values) (e_category values) ;;
         setThumbnails
           (map (fun t =>
                   if Js.eqb (id t) (id editing)
                   then mkThumbnail (id t) (e_title values)
                          (e_category values) (imageUrl t) (createdAt t)
                   else t)
                thumbnails) ;;
         toast (mkToast (str "Success!")
           (str "Thumbnail details have been updated.") DefaultVariant) ;;
         handleEditDialogClose)
        (fun _ =>
           toast (mkToast (str "Update Failed")
             (str "There was an error updating the thumbnail. Please try again.")
             Destructive))
  end.

(** [useMemo] over [thumbnails], [activeCategory] and [searchTerm]. *)
Definition filteredThumbnails (activeCategory searchTerm : jsstring)
  : list Thumbnail :=
  filter
    (fun thumb =>
       Js.includes (toLowerCase (title thumb)) (toLowerCase searchTerm))
    (filter
       (fun thumb =>
          Js.eqb activeCategory (str "All")
          || Js.eqb (category thumb) activeCategory)
       thumbnails).

End Render.

(** [imageUrl.split(';')[0].split('/')[1] || 'png']. The first [split]
    never yields an empty array, so its element 0 is always there. *)
Definition extension (imageUrl : jsstring) : jsstring :=
  orElse
    match nth_error (Js.split 59 imageUrl) 0 with
    | Some mime => nth_error (Js.split 47 mime) 1
    | None => None
    end
    (str "png").

Definition handleDownload (imageUrl title : jsstring) : Anchor :=
  mkAnchor imageUrl
    (Js.replaceWhiteSpaceRuns title (str "_") ++ str "." ++ extension imageUrl).

(** [form.handleSubmit(onValid)]: the resolver runs the schema and the
    handler is called with the parsed values only when there is no issue. *)
Definition handleSubmit {I V} (schema : I -> list Issue + V)
    (onValid : V -> M unit) (raw : I) : M unit :=
  match schema raw with
  | inr values => onValid values
  | inl _ => ret tt
  end.

(** The events of the page, each handled by the closures of the render of
    the current state. *)
Definition submitUploadForm (raw : UploadInput) : M unit :=
  fun st => handleSubmit uploadSchema (onUploadSubmit (thumbnails st)) raw st.

Definition submitEditForm (raw : EditInput) : M unit :=
  fun st =>
    handleSubmit editSchema
      (onEditSubmit (thumbnails st) (editingThumbnail st)) raw st.

Definition clickDelete (thumbnail : Thumbnail) : M unit :=
  fun st => handleDelete (thumbnails st) (id thumbnail) (title thumbnail) st.

End Home.

(* ===================================================================== *)
(** ** The first version of the page (src/app/page.tsx) *)
(* ===================================================================== *)

Module FirstPage.

Section Render.

Variable env : Env.
Variable thumbnails : list Thumbnail.

(** [onSubmit]: as [onUploadSubmit], without the size check and with one
    failure message. *)
Definition onSubmit (values : UploadValues) : M unit :=
  match u_image values with
  | None =>
      throw (ErrorObject (str "Cannot read properties of undefined (reading '0')"))
  | Some files =>
      match nth_error files 0 with
      | None => ret tt
      | Some file =>
          setIsUploading true ;;
          setUploadProgress 0 ;;
          tryCatchFinally
            (setUploadProgress 30 ;;
             imageDataUrl <- toBase64 env file ;;
             setUploadProgress 60 ;;
             let newThumbnailData :=
               mkNewThumbnailData (u_title values) (u_category values)
                 imageDataUrl (env_now env) in
             setUploadProgress 80 ;;
             docRefId <- addDoc env newThumbnailData ;;
             let newThumbnail :=
               mkThumbnail docRefId (d_title newThumbnailData)
                 (d_category newThumbnailData)
                 (d_imageUrl newThumbnailData)
                 (d_createdAt newThumbnailData) in
             setThumbnails (newThumbnail :: thumbnails) ;;
             setUploadProgress 100 ;;
             toast (mkToast (str "Success!")
               (str "Thumbnail " ++ dquote ++ u_title values ++ dquote
                  ++ str " has been added.")
               DefaultVariant) ;;
             setIsUploadDialogOpen false ;;
             setImagePreview None)
            (fun _ =>
               toast (mkToast (str "Upload Failed")
                 (str "There was an error uploading your thumbnail. Please try again.")
                 Destructive))
            (setIsUploading false ;;
             setUploadProgress 0)
      end
  end.

End Render.

End FirstPage.

(* ===================================================================== *)
(** ** The critique flow *)
(* ===================================================================== *)

Module Critique.

(** A value parsed from the model's JSON answer. *)
#[local] Unset Elimination Schemes.
Inductive JsValue :=
| JNull
| JBool (b : bool)
| JNumber (q : Q)
| JString (s : jsstring)
| JArray (items : list JsValue)
| JObject (fields : list (jsstring * JsValue)).
#[local] Set Elimination Schemes.

Record CritiqueThumbnailOutput := mkOutput {
  engagementScore : Q;
  clarityScore : Q;
  colorScore : Q;
  overallVerdict : jsstring;
  suggestions : list jsstring
}.

(** Property access on a parsed object: the last binding of a key wins. *)
Definition getField (fields : list (jsstring * JsValue)) (key : jsstring)
  : option JsValue :=
  match find (fun kv => Js.eqb (fst kv) key) (rev fields) with
  | Some kv => Some (snd kv)
  | None => None
  end.

(** [z.number().min(0).max(100)]. *)
Definition score (v : option JsValue) : option Q :=
  match v with
  | Some (JNumber q) =>
      if Qle_bool 0 q && Qle_bool q (inject_Z 100) then Some q else None
  | _ => None
  end.

(** [z.string()]. *)
Definition zString (v : option JsValue) : option jsstring :=
  match v with
  | Some (JString s) => Some s
  | _ => None
  end.

(** [z.array(z.string())]: every item is a string; the [describe] text
    (A list of 2-4 actionable suggestions) adds no check. *)
Fixpoint stringItems (items : list JsValue) : option (list jsstring) :=
  match items with
  | [] => Some []
  | v :: rest =>
      match zString (Some v), stringItems rest with
      | Some s, Some ss => Some (s :: ss)
      | _, _ => None
      end
  end.

Definition zArrayOfString (v : option JsValue) : option (list jsstring) :=
  match v with
  | Some (JArray items) => stringItems items
  | _ => None
  end.

Definition CritiqueThumbnailOutputSchema (v : option JsValue)
  : option CritiqueThumbnailOutput :=
  match v with
  | Some (JObject fields) =>
      match score (getField fields (str "engagementScore")),
            score (getField fields (str "clarityScore")),
            score (getField fields (str "colorScore")),
            zString (getField fields (str "overallVerdict")),
            zArrayOfString (getField fields (str "suggestions")) with
      | Some e, Some c, Some k, Some o, Some s => Some (mkOutput e c k o s)
      | _, _, _, _, _ => None
      end
  | _ => None
  end.

Section Flow.

(** The prompt's answer for an image: the parsed output, or [null]. *)
Variable prompt : jsstring -> option JsValue.

(** [critiqueThumbnailFlow]: the prompt's output is returned and checked
    against the output schema; [None] is the flow failing. *)
Definition critiqueThumbnailFlow (imageDataUri : jsstring)
  : option CritiqueThumbnailOutput :=
  CritiqueThumbnailOutputSchema (prompt imageDataUri).

Definition critiqueThumbnail (imageDataUri : jsstring)
  : option CritiqueThumbnailOutput :=
  critiqueThumbnailFlow imageDataUri.

End Flow.

End Critique.

(* ===================================================================== *)
(** ** The file name of a download, in the words of the design document *)
(* ===================================================================== *)

Module DownloadSpec.

(** The part of [s] before the first occurrence of [c] (all of [s] when
    [c] does not occur). *)
Fixpoint beforeFirst (c : Z) (s : jsstring) : jsstring :=
  match s with
  | [] => []
  | x :: r => if x =? c then [] else x :: beforeFirst c r
  end.

(** The part of [s] after the first occurrence of [c], if [c] occurs. *)
Fixpoint afterFirst (c : Z) (s : jsstring) : option jsstring :=
  match s with
  | [] => None
  | x :: r => if x =? c then Some r else afterFirst c r
  end.

Definition slash : Z := 47.
Definition semicolon : Z := 59.

(** The MIME subtype of a data URI: the substring between the first ['/']
    and the first [';'], when the URI has a [';'] and a ['/'] before it. *)
Definition mimeSubtype (imageUrl : jsstring) : option jsstring :=
  match afterFirst semicolon imageUrl with
  | Some _ => afterFirst slash (beforeFirst semicolon imageUrl)
  | None => None
  end.

(** The maximal runs of a string: consecutive code units that are all
    white space, or all not, each run as long as possible. *)
Fixpoint runs (s : jsstring) : list (bool * jsstring) :=
  match s with
  | [] => []
  | c :: r =>
      match runs r with
      | (ws, run) :: rest =>
          if Bool.eqb ws (Js.isWhiteSpace c)
          then (ws, c :: run) :: rest
          else (Js.isWhiteSpace c, [c]) :: (ws, run) :: rest
      | [] => [(Js.isWhiteSpace c, [c])]
      end
  end.

(** Neighbouring runs are of different kinds. *)
Fixpoint alternating (l : list (bool * jsstring)) : Prop :=
  match l with
  | a :: (b :: _) as rest => fst a <> fst b /\ alternating rest
  | _ => True
  end.

(** Every maximal run of white space replaced by a single underscore. *)
Definition underscoreRuns (s : jsstring) : jsstring :=
  List.concat
    (map (fun r : bool * jsstring => if fst r then str "_" else snd r)
       (runs s)).

(** Title, dot, extension: the subtype, or ["png"] when there is none. *)
Definition fileName (imageUrl title : jsstring) : jsstring :=
  underscoreRuns title ++ str "."
    ++ match mimeSubtype imageUrl with
       | Some ((_ :: _) as subtype) => subtype
       | _ => str "png"
       end.

(** A data URI whose media type is [type/subtype] or is absent: up to its
    first [';'] it has at most one ['/']. *)
Definition wellFormedMediaType (imageUrl : jsstring) : Prop :=
  In semicolon imageUrl
  /\ forall subtype,
       afterFirst slash (beforeFirst semicolon imageUrl) = Some subtype ->
       ~ In slash subtype.

End DownloadSpec.

(* ===================================================================== *)
(** ** Outcomes of a create, and sample surroundings *)
(* ===================================================================== *)

(** A create attempt fails at one of three stages: the file cannot be read,
    the encoded image is over the document size limit, or the store rejects
    the write. *)
Inductive CreateFails (env : Env) (values : UploadValues) : Prop :=
| encoding_error file rest :
    u_image values = Some (file :: rest) ->
    env_readAsDataURL env file = None ->
    CreateFails env values
| size_rejection file rest imageDataUrl :
    u_image values = Some (file :: rest) ->
    env_readAsDataURL env file = Some imageDataUrl ->
    MAX_DOC_SIZE_BYTES < getByteLength imageDataUrl ->
    CreateFails env values
| store_rejection file rest imageDataUrl error :
    u_image values = Some (file :: rest) ->
    env_readAsDataURL env file = Some imageDataUrl ->
    getByteLength imageDataUrl <= MAX_DOC_SIZE_BYTES ->
    env_addDoc env
      (mkNewThumbnailData (u_title values) (u_category values) imageDataUrl
         (env_now env)) = inl error ->
    CreateFails env values.

Module Sample.

(** Lower-casing restricted to the ASCII letters. *)
Definition asciiLowerCase (s : jsstring) : jsstring :=
  map (fun c => if (65 <=? c) && (c <=? 90) then c + 32 else c) s.

Definition pngUrl : jsstring := str "data:image/png;base64,iVBORw0KGgo=".

(** 349496 euro signs: 1048488 bytes of UTF-8, one over the limit. *)
Definition overLimitUrl : jsstring := repeat 0x20AC (Z.to_nat 349496).

(** One two-byte letter and 349495 euro signs: 1048487 bytes exactly. *)
Definition atLimitUrl : jsstring := 0xE9 :: repeat 0x20AC (Z.to_nat 349495).

Definition photo : File := mkFile (str "cat.png") 51200.

(** A store that acknowledges every request. *)
Definition store (dataUrl : option jsstring) : Env :=
  mkEnv (fun _ => dataUrl) 1700000000000 (inr [])
    (fun _ => inr (str "doc4")) (fun _ _ _ => inr tt) (fun _ => inr tt).

(** A store that rejects every request. *)
Definition brokenStore (dataUrl : option jsstring) : Env :=
  let error := ErrorObject (str "Firestore: permission denied") in
  mkEnv (fun _ => dataUrl) 1700000000000 (inl error)
    (fun _ => inl error) (fun _ _ _ => inl error) (fun _ => inl error).

Definition upload : UploadInput :=
  mkUploadInput (str "My Trip to Japan") (Some (str "Vlog")) (Some [photo]).

Definition values : UploadValues :=
  mkUploadValues (str "My Trip to Japan") (str "Vlog") (Some [photo]).

Definition t1 : Thumbnail :=
  mkThumbnail (str "doc1") (str "Epic Fortnite Montage") (str "Gaming")
    pngUrl 1600000000000.
Definition t2 : Thumbnail :=
  mkThumbnail (str "doc2") (str "How to Cook Pasta") (str "Cooking")
    pngUrl 1650000000000.
Definition t3 : Thumbnail :=
  mkThumbnail (str "doc3") (str "React Hooks in 10 Minutes") (str "Tutorial")
    pngUrl 1690000000000.

(** A session that has loaded three records, newest first. *)
Definition loaded : State :=
  mkState [t3; t2; t1] false false None None false 0 [] [GetDocs] [].

End Sample.

Module CritiqueSample.
Import Critique.

Definition answer (suggested : list JsValue) : JsValue :=
  JObject
    [(str "engagementScore", JNumber (inject_Z 72));
     (str "clarityScore", JNumber (171 # 2));
     (str "colorScore", JNumber (inject_Z 60));
     (str "overallVerdict", JString (str "Clear subject, weak contrast."));
     (str "suggestions", JArray suggested)].

(** An answer with a single suggestion, and one with five. *)
Definition oneSuggestion : JsValue :=
  answer [JString (str "Increase the contrast.")].

Definition fiveSuggestions : JsValue :=
  answer [JString (str "Increase the contrast.");
          JString (str "Use fewer words.");
          JString (str "Enlarge the face.");
          JString (str "Add an outline to the text.");
          JString (str "Crop tighter.")].

End CritiqueSample.

(* ===================================================================== *)
(** ** The page as a whole: events and runs *)
(* ===================================================================== *)

(** What the user (or the mount of the component) can trigger. *)
Inductive Event :=
| PageLoaded
| UploadDialogChanged (open : bool)
| ImageChosen (files : option (list File))
| UploadSubmitted (raw : UploadInput)
| EditClicked (thumbnail : Thumbnail)
| EditDialogChanged (open : bool)
| EditSubmitted (raw : EditInput)
| DeleteConfirmed (thumbnail : Thumbnail).

(** The handler the page attaches to each event. The upload dialog's
    [onOpenChange] opens it or runs [handleUploadDialogClose]; the edit
    dialog's is [!open && handleEditDialogClose()]. *)
Definition handleEvent (toLowerCase : jsstring -> jsstring) (env : Env)
    (ev : Event) : M unit :=
  match ev with
  | PageLoaded => fetchThumbnails env
  | UploadDialogChanged open =>
      if open then setIsUploadDialogOpen true else handleUploadDialogClose
  | ImageChosen files => onImageChange env files
  | UploadSubmitted raw => submitUploadForm toLowerCase env raw
  | EditClicked thumbnail => handleEditDialogOpen thumbnail
  | EditDialogChanged open => if open then ret tt else handleEditDialogClose
  | EditSubmitted raw => submitEditForm env raw
  | DeleteConfirmed thumbnail => clickDelete env thumbnail
  end.

(** A session: events handled one after the other, each with the answers
    the outside world gives while it is handled. *)
Definition run (toLowerCase : jsstring -> jsstring)
    (session : list (Env * Event)) (st : State) : State :=
  fold_left
    (fun s step => exec (handleEvent toLowerCase (fst step) (snd step)) s)
    session st.

(** The four issues the upload schema can raise. *)
Definition titleIssue : Issue :=
  mkIssue (str "title") (str "Title must be at least 3 characters.").
Definition categoryIssue : Issue :=
  mkIssue (str "category") (str "Please select a category.").
Definition imageRequiredIssue : Issue :=
  mkIssue (str "image") (str "Image is required.").
Definition imageTooBigIssue : Issue :=
  mkIssue (str "image") (str "Image must be less than 0.7MB.").

(** The two fixed failure texts of the upload. *)
Definition genericUploadError : jsstring :=
  str "There was an error uploading your thumbnail. Please try again.".
Definition databaseUploadError : jsstring :=
  str "Error communicating with the database. Please check your connection and Firestore setup.".

(** The list is ordered newest first: no record is older than a record
    after it. *)
Definition newestFirst (l : list Thumbnail) : Prop :=
  StronglySorted (fun a b => createdAt b <= createdAt a) l.

(** No two records of the list have the same id. *)
Definition distinctIds (l : list Thumbnail) : Prop := NoDup (map id l).

(** The edit dialog is open exactly when a record is being edited. *)
Definition editDialogConsistent (st : State) : Prop :=
  isEditDialogOpen st = true <-> editingThumbnail st <> None.

(* ===================================================================== *)
(** ** The version of the page with local data and numeric ids *)
(* ===================================================================== *)

Module LocalPage.

Record Thumbnail := mkThumbnail {
  id : Z;
  title : jsstring;
  category : jsstring;
  imageUrl : jsstring
}.

(** The values [onSubmit] receives once the schema has accepted them. *)
Record Values := mkValues {
  v_title : jsstring;
  v_category : jsstring;
  v_imageUrl : jsstring
}.

Definition initialThumbnails : list Thumbnail :=
  [mkThumbnail 1 (str "Epic Fortnite Montage") (str "Gaming")
     (str "https://picsum.photos/id/10/1280/720");
   mkThumbnail 2 (str "My Trip to Japan") (str "Vlog")
     (str "https://picsum.photos/id/20/1280/720");
   mkThumbnail 3 (str "React Hooks in 10 Minutes") (str "Tutorial")
     (str "https://picsum.photos/id/30/1280/720");
   mkThumbnail 4 (str "Healthy Morning Routine") (str "Lifestyle")
     (str "https://picsum.photos/id/40/1280/720");
   mkThumbnail 5 (str "Minecraft Survival Guide") (str "Gaming")
     (str "https://picsum.photos/id/50/1280/720");
   mkThumbnail 6 (str "Unboxing the new MacBook") (str "Tech")
     (str "https://picsum.photos/id/60/1280/720");
   mkThumbnail 7 (str "How to Cook Pasta") (str "Cooking")
     (str "https://picsum.photos/id/70/1280/720");
   mkThumbnail 8 (str "The Philosophy of Stoicism") (str "Education")
     (str "https://picsum.photos/id/80/1280/720")].

Record State := mkState {
  thumbnails : list Thumbnail;
  isDialogOpen : bool;
  toasts : list Toast
}.

Definition initialState : State := mkState initialThumbnails false [].

(** [onSubmit]: the new record gets the id [thumbnails.length + 1] and goes
    to the head of the list. *)
Definition onSubmit (values : Values) (st : State) : State :=
  let newThumbnail :=
    mkThumbnail (Z.of_nat (List.length (thumbnails st)) + 1)
      (v_title values) (v_category values) (v_imageUrl values) in
  mkState (newThumbnail :: thumbnails st) false
    (toasts st
       ++ [mkToast (str "Success!")
             (str "Thumbnail " ++ dquote ++ v_title values ++ dquote
                ++ str " has been added.")
             DefaultVariant]).

(** Several submissions in a row. *)
Definition submitAll (submissions : list Values) (st : State) : State :=
  fold_left (fun s values => onSubmit values s) submissions st.

End LocalPage.

(* ===================================================================== *)
(** ** The two forms and what the user can do on the page *)
(* ===================================================================== *)

(** Whether the store's answer to a request is an acknowledgement. *)
Definition acknowledged (env : Env) (call : StoreCall) : bool :=
  match call with
  | GetDocs => match env_getDocs env with inr _ => true | inl _ => false end
  | AddDoc data =>
      match env_addDoc env data with inr _ => true | inl _ => false end
  | UpdateDoc docId newTitle newCategory =>
      match env_updateDoc env docId newTitle newCategory with
      | inr _ => true
      | inl _ => false
      end
  | DeleteDoc docId =>
      match env_deleteDoc env docId with inr _ => true | inl _ => false end
  end.

(** The field values the form library holds for [uploadForm] and
    [editForm]. [reset(values)] makes [values] the form's defaults as well,
    and [reset()] goes back to the defaults: the upload form's are the empty
    title with no category and no image, the edit form's are those of the
    last [handleEditDialogOpen]. (Before its first [reset] the edit form's
    title is [undefined], which the schema refuses like the empty title
    held here.) *)
Record Forms := mkForms {
  upload_title : jsstring;
  upload_category : option jsstring;
  upload_image : option (list File);
  edit_title : jsstring;
  edit_category : option jsstring;
  edit_default_title : jsstring;
  edit_default_category : option jsstring
}.

Definition initialForms : Forms := mkForms [] None None [] None [] None.

(** [uploadForm.reset()]. *)
Definition resetUploadForm (f : Forms) : Forms :=
  mkForms [] None None (edit_title f) (edit_category f)
    (edit_default_title f) (edit_default_category f).

(** [editForm.reset({ title, category })]. *)
Definition resetEditFormTo (thumbnail : Thumbnail) (f : Forms) : Forms :=
  mkForms (upload_title f) (upload_category f) (upload_image f)
    (title thumbnail) (Some (category thumbnail))
    (title thumbnail) (Some (category thumbnail)).

(** [editForm.reset()]. *)
Definition resetEditForm (f : Forms) : Forms :=
  mkForms (upload_title f) (upload_category f) (upload_image f)
    (edit_default_title f) (edit_default_category f)
    (edit_default_title f) (edit_default_category f).

(** What the user can do. A category is chosen by picking one of the items
    the select renders, a card by its position in the list; the fields and
    buttons of a form exist only while its dialog is open. *)
Inductive UserAction :=
| Mount
| OpenUpload
| CloseUpload
| TypeUploadTitle (text : jsstring)
| PickUploadCategory (item : nat)
| ChooseUploadImage (files : option (list File))
| SubmitUpload
| ClickEdit (card : nat)
| TypeEditTitle (text : jsstring)
| PickEditCategory (item : nat)
| SubmitEdit
| CloseEdit
| ConfirmDelete (card : nat).

Definition perform (toLowerCase : jsstring -> jsstring) (env : Env)
    (action : UserAction) (page : Forms * State) : Forms * State :=
  let (f, st) := page in
  let handle ev := exec (handleEvent toLowerCase env ev) st in
  match action with
  | Mount => (f, handle PageLoaded)
  | OpenUpload => (f, handle (UploadDialogChanged true))
  | CloseUpload =>
      if isUploadDialogOpen st
      then (resetUploadForm f, handle (UploadDialogChanged false))
      else page
  | TypeUploadTitle text =>
      if isUploadDialogOpen st
      then (mkForms text (upload_category f) (upload_image f) (edit_title f)
              (edit_category f) (edit_default_title f)
              (edit_default_category f), st)
      else page
  | PickUploadCategory item =>
      match isUploadDialogOpen st, nth_error selectItems item with
      | true, Some cat =>
          (mkForms (upload_title f) (Some cat) (upload_image f) (edit_title f)
             (edit_category f) (edit_default_title f)
             (edit_default_category f), st)
      | _, _ => page
      end
  | ChooseUploadImage files =>
      if isUploadDialogOpen st
      then (mkForms (upload_title f) (upload_category f) files (edit_title f)
              (edit_category f) (edit_default_title f)
              (edit_default_category f), handle (ImageChosen files))
      else page
  | SubmitUpload =>
      if isUploadDialogOpen st
      then
        let st' :=
          handle (UploadSubmitted
                    (mkUploadInput (upload_title f) (upload_category f)
                       (upload_image f))) in
        (* the handler closes the dialog, and resets the form, on success *)
        (if isUploadDialogOpen st' then f else resetUploadForm f, st')
      else page
  | ClickEdit card =>
      match nth_error (thumbnails st) card with
      | Some thumbnail =>
          (resetEditFormTo thumbnail f, handle (EditClicked thumbnail))
      | None => page
      end
  | TypeEditTitle text =>
      if isEditDialogOpen st
      then (mkForms (upload_title f) (upload_category f) (upload_image f) text
              (edit_category f) (edit_default_title f)
              (edit_default_category f), st)
      else page
  | PickEditCategory item =>
      match isEditDialogOpen st, nth_error selectItems item with
      | true, Some cat =>
          (mkForms (upload_title f) (upload_category f) (upload_image f)
             (edit_title f) (Some cat) (edit_default_title f)
             (edit_default_category f), st)
      | _, _ => page
      end
  | SubmitEdit =>
      if isEditDialogOpen st
      then
        let st' :=
          handle (EditSubmitted (mkEditInput (edit_title f) (edit_category f))) in
        (if isEditDialogOpen st' then f else resetEditForm f, st')
      else page
  | CloseEdit =>
      if isEditDialogOpen st
      then (resetEditForm f, handle (EditDialogChanged false))
      else page
  | ConfirmDelete card =>
      match nth_error (thumbnails st) card with
      | Some thumbnail => (f, handle (DeleteConfirmed thumbnail))
      | None => page
      end
  end.

(** A session of the user on the page, each action with the answers the
    outside world gives while it is handled. *)
Definition usePage (toLowerCase : jsstring -> jsstring)
    (actions : list (Env * UserAction)) (page : Forms * State)
  : Forms * State :=
  fold_left (fun p step => perform toLowerCase (fst step) (snd step) p)
    actions page.

(** The categories of the records sent to the store for persistence, by
    create ([addDoc]) and by update ([updateDoc]). *)
Definition persistedCategories (calls : list StoreCall) : list jsstring :=
  flat_map
    (fun call =>
       match call with
       | AddDoc data => [d_category data]
       | UpdateDoc _ _ newCategory => [newCategory]
       | _ => []
       end)
    calls.

(** The fixed set of categories. *)
Definition enumeratedCategories : list jsstring :=
  [str "Gaming"; str "Vlog"; str "Tutorial"; str "Lifestyle"; str "Tech";
   str "Cooking"; str "Education"].


(** A form field holds a category of the set, or none yet. *)
Definition enumeratedOrMissing (c : option jsstring) : Prop :=
  match c with
  | Some cat => In cat enumeratedCategories
  | None => True
  end.



(** A sample of use: load, upload a video as Vlog, then move the second
    card to Tech. *)
Definition sampleStore : Env :=
  mkEnv (fun _ => Some Sample.pngUrl) 1700000000000
    (inr [Sample.t3; Sample.t2; Sample.t1])
    (fun _ => inr (str "doc4")) (fun _ _ _ => inr tt) (fun _ => inr tt).

Definition sampleUse : list (Env * UserAction) :=
  map (fun action => (sampleStore, action))
    [Mount; OpenUpload; TypeUploadTitle (str "My Trip to Japan");
     PickUploadCategory 1; ChooseUploadImage (Some [Sample.photo]);
     SubmitUpload; ClickEdit 1; PickEditCategory 4; SubmitEdit].

(** The categories of the records sent to the store by a create. *)
Definition createdCategories (calls : list StoreCall) : list jsstring :=
  flat_map
    (fun call =>
       match call with
       | AddDoc data => [d_category data]
       | _ => []
       end)
    calls.

(* ===================================================================== *)
(** ** Facts about strings *)
(* ===================================================================== *)

Module JsFacts.

Lemma eqb_eq (a b : jsstring) : Js.eqb a b = true <-> a = b.
Proof.
  revert b; induction a as [|x a IH]; intros [|y b]; simpl;
    try (split; (discriminate || reflexivity)).
  rewrite andb_true_iff, Z.eqb_eq, IH.
  split; [intros [-> ->]; reflexivity | intros H; inversion H; auto].
Qed.

Lemma eqb_refl (a : jsstring) : Js.eqb a a = true.
Proof. apply eqb_eq; reflexivity. Qed.

Lemma eqb_neq (a b : jsstring) : Js.eqb a b = false <-> a <> b.
Proof.
  rewrite <- eqb_eq. destruct (Js.eqb a b); split; congruence.
Qed.

Lemma startsWith_nil (s : jsstring) : Js.startsWith [] s = true.
Proof. destruct s; reflexivity. Qed.

(** Every string includes the empty string. *)
Lemma includes_nil (s : jsstring) : Js.includes s [] = true.
Proof. destruct s; reflexivity. Qed.

(** [includes] finds exactly the strings that occur as a factor. *)
Lemma startsWith_app (p s : jsstring) :
  Js.startsWith p s = true <-> exists r, s = p ++ r.
Proof.
  revert s; induction p as [|a p IH]; intros s.
  - rewrite startsWith_nil. split; [exists s; reflexivity | reflexivity].
  - destruct s as [|b s]; simpl.
    + split; [discriminate | intros [r Hr]; discriminate].
    + rewrite andb_true_iff, Z.eqb_eq, IH. split.
      * intros [-> [r ->]]. exists r; reflexivity.
      * intros [r Hr]. inversion Hr; subst. split; [reflexivity | exists r; reflexivity].
Qed.

Lemma includes_factor (s needle : jsstring) :
  Js.includes s needle = true <-> exists l r, s = l ++ needle ++ r.
Proof.
  induction s as [|c s IH].
  - simpl. rewrite orb_false_r, startsWith_app. split.
    + intros [r Hr]. exists [], r. exact Hr.
    + intros [l [r Hr]]. destruct l; [exists r; exact Hr | discriminate].
  - cbn [Js.includes]. rewrite orb_true_iff, startsWith_app, IH. split.
    + intros [[r Hr] | [l [r Hr]]].
      * exists [], r. exact Hr.
      * exists (c :: l), r. rewrite Hr. reflexivity.
    + intros [[|c' l] [r Hr]].
      * left. exists r. exact Hr.
      * right. inversion Hr; subst. exists l, r. reflexivity.
Qed.

Lemma split_nonempty (sep : Z) (s : jsstring) : Js.split sep s <> [].
Proof.
  induction s as [|c s IH]; simpl; [discriminate|].
  destruct (c =? sep); [discriminate|].
  destruct (Js.split sep s); discriminate.
Qed.

(** The UTF-8 size of a string lies between its length and three times
    its length: the two differ as soon as a code unit is not ASCII. *)
Lemma blobSize_bounds (s : jsstring) :
  Js.length s <= Js.blobSize s <= 3 * Js.length s.
Proof.
  unfold Js.length.
  assert (H : forall n s, (List.length s <= n)%nat ->
            Z.of_nat (List.length s) <= Js.blobSize s
              <= 3 * Z.of_nat (List.length s)).
  { induction n as [|n IH]; intros [|c r] Hn; cbn [List.length] in Hn;
      try (cbn; lia).
    assert (Hr := IH r ltac:(lia)).
    cbn [Js.blobSize List.length]. rewrite Nat2Z.inj_succ.
    destruct (c <? 128); [lia|].
    destruct (c <? 2048); [lia|].
    destruct (Js.isHighSurrogate c); [|lia].
    destruct r as [|d r']; [cbn; lia|].
    destruct (Js.isLowSurrogate d); [|lia].
    assert (Hr' := IH r' ltac:(cbn [List.length] in Hn; lia)).
    cbn [List.length] in *. lia. }
  apply (H (List.length s)). lia.
Qed.

Lemma blobSize_ascii (s : jsstring) :
  Forall (fun c => c < 128) s -> Js.blobSize s = Js.length s.
Proof.
  unfold Js.length. induction 1 as [|c r Hc _ IH]; [reflexivity|].
  cbn [Js.blobSize List.length]. apply Z.ltb_lt in Hc. rewrite Hc, IH. lia.
Qed.

(** The built-ins on small inputs. *)
Example split_sample :
  Js.split 59 (str "a;b;;c") = [str "a"; str "b"; []; str "c"]
  /\ Js.split 59 [] = [[]]
  /\ Js.split 47 (str "data:image/png") = [str "data:image"; str "png"].
Proof. repeat split; reflexivity. Qed.

Example includes_sample :
  Js.includes (str "epic fortnite montage") (str "fort") = true
  /\ Js.includes (str "epic fortnite montage") (str "pasta") = false
  /\ Js.includes [] [] = true.
Proof. repeat split; reflexivity. Qed.

Example replace_sample :
  Js.replaceWhiteSpaceRuns (str "a  b" ++ [9; 10; 0x3000] ++ str "c ") (str "_")
  = str "a_b_c_".
Proof. reflexivity. Qed.

End JsFacts.

(* ===================================================================== *)
(** ** Facts about the form schemas *)
(* ===================================================================== *)

Lemma imageField_inr (v v' : option (list File)) :
  imageField v = inr v' <->
  v' = v /\ imageIsPresent v = true /\ imageIsSmallEnough v = true.
Proof.
  unfold imageField.
  destruct (imageIsPresent v), (imageIsSmallEnough v); simpl; split;
    try discriminate; try (intros [_ [? ?]]; discriminate).
  - intros H; inversion H; auto.
  - intros [-> _]; reflexivity.
Qed.

(** The upload schema accepts exactly the inputs with a title of three code
    units or more, a category that is a string, and one file that is not
    over the file size limit; the values are the fields unchanged. *)
Lemma uploadSchema_inr (raw : UploadInput) (values : UploadValues) :
  uploadSchema raw = inr values <->
  3 <= Js.length (in_title raw)
  /\ in_category raw = Some (u_category values)
  /\ imageIsPresent (in_image raw) = true
  /\ imageIsSmallEnough (in_image raw) = true
  /\ u_title values = in_title raw
  /\ u_image values = in_image raw.
Proof.
  unfold uploadSchema, titleField, categoryField.
  destruct (3 <=? Js.length (in_title raw)) eqn:Ht.
  - apply Z.leb_le in Ht.
    destruct (in_category raw) as [c|].
    + destruct (imageField (in_image raw)) as [issues|i] eqn:Hi.
      * split; [discriminate|]. intros (_ & _ & Hp & Hs & _ & _).
        assert (H : imageField (in_image raw) = inr (in_image raw))
          by (apply imageField_inr; auto).
        congruence.
      * apply imageField_inr in Hi. destruct Hi as (-> & Hp & Hs).
        split.
        -- intros H; inversion H; subst; simpl; auto 10.
        -- intros (_ & Hc & _ & _ & Ht' & Hi'). destruct values; simpl in *.
           congruence.
    + split; [discriminate | intros (_ & ? & _); discriminate].
  - apply Z.leb_gt in Ht. split; [|lia].
    destruct (in_category raw), (imageField (in_image raw)); discriminate.
Qed.

Lemma editSchema_inr (raw : EditInput) (values : EditValues) :
  editSchema raw = inr values <->
  3 <= Js.length (ein_title raw)
  /\ ein_category raw = Some (e_category values)
  /\ e_title values = ein_title raw.
Proof.
  unfold editSchema, titleField, categoryField.
  destruct (3 <=? Js.length (ein_title raw)) eqn:Ht.
  - apply Z.leb_le in Ht. destruct (ein_category raw) as [c|].
    + split.
      * intros H; inversion H; subst; simpl; auto.
      * intros (_ & Hc & Ht'). destruct values; simpl in *. congruence.
    + split; [discriminate | intros (_ & ? & _); discriminate].
  - apply Z.leb_gt in Ht. split; [|lia].
    destruct (ein_category raw); discriminate.
Qed.

(** For a whole number of bytes, the comparison with the file size limit
    (the double 734003.19999999995...) is the comparison with 734003. *)
Lemma file_size_limit (n : Z) :
  Qle_bool (inject_Z n) MAX_IMAGE_FILE_SIZE_BYTES = (n <=? 734003).
Proof.
  unfold Qle_bool, MAX_IMAGE_FILE_SIZE_BYTES, MAX_IMAGE_FILE_SIZE_MB.
  cbn [Qmult Qnum Qden inject_Z Pos.mul].
  destruct (n <=? 734003) eqn:H; [apply Z.leb_le in H | apply Z.leb_gt in H].
  - apply Z.leb_le. lia.
  - apply Z.leb_gt. lia.
Qed.

(** The same limit against the decimal 734003.2 of the design document. *)
Lemma file_size_limit_decimal (n : Z) :
  (n <=? 734003) = Qle_bool (inject_Z n) (7340032 # 10).
Proof.
  unfold Qle_bool. cbn [Qnum Qden inject_Z].
  destruct (n <=? 734003) eqn:H; [apply Z.leb_le in H | apply Z.leb_gt in H];
    symmetry; [apply Z.leb_le | apply Z.leb_gt]; lia.
Qed.

(* ===================================================================== *)
(** ** Create *)
(* ===================================================================== *)

Ltac run_handler :=
  unfold exec, tryCatch, tryCatchFinally, uploadFailed, toBase64, addDoc,
    updateDoc, deleteDoc, getDocs, handleUploadDialogClose,
    handleEditDialogClose;
  unfold setThumbnails, setIsUploadDialogOpen, setIsEditDialogOpen,
    setEditingThumbnail, setImagePreview, setIsUploading, setUploadProgress,
    toast, logStoreCall, logFileRead;
  unfold await, bind, ret, throw, update;
  cbn [fst snd thumbnails isUploadDialogOpen isEditDialogOpen editingThumbnail
       imagePreview isUploading uploadProgress toasts storeCalls fileReads].

Lemma tooLargeMessage_says_too_large :
  Js.includes tooLargeMessage (str "too large") = true.
Proof. vm_compute. reflexivity. Qed.

(** An acknowledged create sets the list to the new record followed by the
    list of the render the handler was created in. *)
Lemma acknowledged_create_prepends_to_the_render_list :
  forall toLowerCase env thumbs st values file rest imageDataUrl docRefId,
    u_image values = Some (file :: rest) ->
    env_readAsDataURL env file = Some imageDataUrl ->
    getByteLength imageDataUrl <= MAX_DOC_SIZE_BYTES ->
    env_addDoc env
      (mkNewThumbnailData (u_title values) (u_category values) imageDataUrl
         (env_now env)) = inr docRefId ->
    thumbnails (exec (onUploadSubmit toLowerCase env thumbs values) st)
    = mkThumbnail docRefId (u_title values) (u_category values) imageDataUrl
        (env_now env) :: thumbs.
Proof.
  intros lower env thumbs st values file rest url docId Hv Hread Hsize Hadd.
  assert (Hgt : (getByteLength url >? MAX_DOC_SIZE_BYTES) = false).
  { destruct (getByteLength url >? MAX_DOC_SIZE_BYTES) eqn:H; [|reflexivity].
    apply Z.gtb_lt in H. lia. }
  unfold onUploadSubmit. rewrite Hv. cbn [nth_error].
  run_handler. rewrite Hread. cbn [fst snd]. rewrite Hgt.
  cbn [d_title d_category d_imageUrl d_createdAt]. rewrite Hadd. reflexivity.
Qed.

(** C1: a create whose inputs pass validation, whose encoded image is at most
    1,048,487 bytes and which the store acknowledges with an id leaves the
    in-memory list equal to the new record (store-assigned id, client-assigned
    createdAt) followed by the records held before, each one position later
    and unchanged. *)
Theorem create_prepends_the_new_record :
  forall toLowerCase env st raw values file imageDataUrl docRefId,
    uploadSchema raw = inr values ->
    in_image raw = Some [file] ->
    env_readAsDataURL env file = Some imageDataUrl ->
    getByteLength imageDataUrl <= MAX_DOC_SIZE_BYTES ->
    env_addDoc env
      (mkNewThumbnailData (u_title values) (u_category values) imageDataUrl
         (env_now env)) = inr docRefId ->
    let after := thumbnails (exec (submitUploadForm toLowerCase env raw) st) in
    after
    = mkThumbnail docRefId (u_title values) (u_category values) imageDataUrl
        (env_now env) :: thumbnails st
    /\ forall i, nth_error after (S i) = nth_error (thumbnails st) i.
Proof.
  intros lower env st raw values file url docId Hschema Himg Hread Hsize Hadd.
  assert (Hv : u_image values = Some [file]).
  { apply uploadSchema_inr in Hschema.
    destruct Hschema as (_ & _ & _ & _ & _ & Hi). congruence. }
  assert (E : thumbnails (exec (submitUploadForm lower env raw) st)
              = mkThumbnail docId (u_title values) (u_category values) url
                  (env_now env) :: thumbnails st).
  { unfold submitUploadForm, handleSubmit, exec. rewrite Hschema.
    exact (acknowledged_create_prepends_to_the_render_list lower env
             (thumbnails st) st values file [] url docId Hv Hread Hsize Hadd). }
  cbv zeta. rewrite E. split; [reflexivity | intros i; reflexivity].
Qed.

Lemma create_prepends_the_new_record_witness :
  thumbnails
    (exec (submitUploadForm Sample.asciiLowerCase
             (Sample.store (Some Sample.pngUrl)) Sample.upload)
       Sample.loaded)
  = mkThumbnail (str "doc4") (str "My Trip to Japan") (str "Vlog")
      Sample.pngUrl 1700000000000
      :: [Sample.t3; Sample.t2; Sample.t1].
Proof.
  apply (create_prepends_the_new_record Sample.asciiLowerCase
           (Sample.store (Some Sample.pngUrl)) Sample.loaded Sample.upload
           Sample.values Sample.photo Sample.pngUrl (str "doc4")).
  - reflexivity.
  - reflexivity.
  - reflexivity.
  - vm_compute. discriminate.
  - reflexivity.
Defined.

(** The first version of the page prepends in the same way (it has no size
    check). *)
Lemma first_page_create_prepends :
  forall env thumbs st values file rest imageDataUrl docRefId,
    u_image values = Some (file :: rest) ->
    env_readAsDataURL env file = Some imageDataUrl ->
    env_addDoc env
      (mkNewThumbnailData (u_title values) (u_category values) imageDataUrl
         (env_now env)) = inr docRefId ->
    thumbnails (exec (FirstPage.onSubmit env thumbs values) st)
    = mkThumbnail docRefId (u_title values) (u_category values) imageDataUrl
        (env_now env) :: thumbs.
Proof.
  intros env thumbs st values file rest url docId Hv Hread Hadd.
  unfold FirstPage.onSubmit. rewrite Hv. cbn [nth_error].
  run_handler. rewrite Hread. cbn [fst snd].
  cbn [d_title d_category d_imageUrl d_createdAt]. rewrite Hadd. reflexivity.
Qed.

(** C2: when the encoded data URI is longer than 1,048,487 bytes of UTF-8,
    the create is rejected with the too-large message and no request reaches
    the store; at exactly 1,048,487 bytes the check lets the write through. *)
Theorem size_gate_rejects_before_any_store_call :
  forall toLowerCase env thumbs values file rest imageDataUrl st,
    u_image values = Some (file :: rest) ->
    env_readAsDataURL env file = Some imageDataUrl ->
    let st' := exec (onUploadSubmit toLowerCase env thumbs values) st in
    (MAX_DOC_SIZE_BYTES < getByteLength imageDataUrl ->
       storeCalls st' = storeCalls st
       /\ toasts st'
          = toasts st ++ [mkToast (str "Upload Failed") tooLargeMessage
                            Destructive]
       /\ thumbnails st' = thumbnails st)
    /\ (getByteLength imageDataUrl = MAX_DOC_SIZE_BYTES ->
          storeCalls st'
          = storeCalls st
              ++ [AddDoc (mkNewThumbnailData (u_title values)
                            (u_category values) imageDataUrl (env_now env))]).
Proof.
  intros lower env thumbs values file rest url st Hv Hread st'. subst st'.
  unfold onUploadSubmit. rewrite Hv. cbn [nth_error]. split; intros Hsize.
  - assert (Hgt : (getByteLength url >? MAX_DOC_SIZE_BYTES) = true)
      by (apply Z.gtb_lt; exact Hsize).
    run_handler. rewrite Hread. cbn [fst snd]. rewrite Hgt.
    rewrite tooLargeMessage_says_too_large. repeat split; reflexivity.
  - assert (Hgt : (getByteLength url >? MAX_DOC_SIZE_BYTES) = false).
    { rewrite Hsize. reflexivity. }
    run_handler. rewrite Hread. cbn [fst snd]. rewrite Hgt.
    destruct (env_addDoc env _) as [error|docId]; cbn [fst snd].
    + destruct (Js.includes _ _); [reflexivity|].
      destruct (Js.includes _ _); reflexivity.
    + reflexivity.
Qed.

Lemma size_gate_rejects_before_any_store_call_witness :
  (let st' :=
     exec (onUploadSubmit Sample.asciiLowerCase
             (Sample.store (Some Sample.overLimitUrl)) [] Sample.values)
       initialState in
   storeCalls st' = storeCalls initialState
   /\ toasts st'
      = toasts initialState
          ++ [mkToast (str "Upload Failed") tooLargeMessage Destructive]
   /\ thumbnails st' = thumbnails initialState)
  /\ (let st' :=
        exec (onUploadSubmit Sample.asciiLowerCase
                (Sample.store (Some Sample.atLimitUrl)) [] Sample.values)
          initialState in
      storeCalls st'
      = storeCalls initialState
          ++ [AddDoc (mkNewThumbnailData (u_title Sample.values)
                        (u_category Sample.values) Sample.atLimitUrl
                        (env_now (Sample.store (Some Sample.atLimitUrl))))]).
Proof.
  split.
  - apply (size_gate_rejects_before_any_store_call Sample.asciiLowerCase
             (Sample.store (Some Sample.overLimitUrl)) [] Sample.values
             Sample.photo [] Sample.overLimitUrl initialState eq_refl eq_refl).
    vm_compute. reflexivity.
  - apply (size_gate_rejects_before_any_store_call Sample.asciiLowerCase
             (Sample.store (Some Sample.atLimitUrl)) [] Sample.values
             Sample.photo [] Sample.atLimitUrl initialState eq_refl eq_refl).
    vm_compute. reflexivity.
Defined.

(** C3: a create that fails at any stage (the file cannot be read, the
    encoded image is over the limit, or the store rejects the write) leaves
    the in-memory list as it was before the attempt. *)
Theorem failed_create_leaves_the_list_unchanged :
  forall toLowerCase env thumbs values st,
    CreateFails env values ->
    thumbnails (exec (onUploadSubmit toLowerCase env thumbs values) st)
    = thumbnails st.
Proof.
  intros lower env thumbs values st
    [file rest Hv Hread | file rest url Hv Hread Hsize
    | file rest url error Hv Hread Hsize Hadd];
    unfold onUploadSubmit; rewrite Hv; cbn [nth_error]; run_handler;
    rewrite Hread; cbn [fst snd].
  - reflexivity.
  - assert (Hgt : (getByteLength url >? MAX_DOC_SIZE_BYTES) = true)
      by (apply Z.gtb_lt; exact Hsize).
    rewrite Hgt. reflexivity.
  - assert (Hgt : (getByteLength url >? MAX_DOC_SIZE_BYTES) = false).
    { destruct (getByteLength url >? MAX_DOC_SIZE_BYTES) eqn:H; [|reflexivity].
      apply Z.gtb_lt in H. lia. }
    rewrite Hgt. rewrite Hadd. reflexivity.
Qed.

Lemma failed_create_leaves_the_list_unchanged_witness :
  thumbnails
    (exec (onUploadSubmit Sample.asciiLowerCase
             (Sample.brokenStore (Some Sample.pngUrl))
             (thumbnails Sample.loaded) Sample.values)
       Sample.loaded)
  = thumbnails Sample.loaded.
Proof.
  apply (failed_create_leaves_the_list_unchanged Sample.asciiLowerCase
           (Sample.brokenStore (Some Sample.pngUrl))
           (thumbnails Sample.loaded) Sample.values Sample.loaded).
  apply (store_rejection _ _ Sample.photo [] Sample.pngUrl
           (ErrorObject (str "Firestore: permission denied"))).
  - reflexivity.
  - reflexivity.
  - vm_compute. discriminate.
  - reflexivity.
Defined.

(** Every failed create shows one destructive toast titled Upload Failed. *)
Lemma failed_create_is_reported :
  forall toLowerCase env thumbs values st,
    CreateFails env values ->
    exists text,
      toasts (exec (onUploadSubmit toLowerCase env thumbs values) st)
      = toasts st ++ [mkToast (str "Upload Failed") text Destructive].
Proof.
  intros lower env thumbs values st
    [file rest Hv Hread | file rest url Hv Hread Hsize
    | file rest url error Hv Hread Hsize Hadd];
    unfold onUploadSubmit; rewrite Hv; cbn [nth_error]; run_handler;
    rewrite Hread; cbn [fst snd].
  - eexists; reflexivity.
  - assert (Hgt : (getByteLength url >? MAX_DOC_SIZE_BYTES) = true)
      by (apply Z.gtb_lt; exact Hsize).
    rewrite Hgt. eexists; reflexivity.
  - assert (Hgt : (getByteLength url >? MAX_DOC_SIZE_BYTES) = false).
    { destruct (getByteLength url >? MAX_DOC_SIZE_BYTES) eqn:H; [|reflexivity].
      apply Z.gtb_lt in H. lia. }
    rewrite Hgt. rewrite Hadd. eexists; reflexivity.
Qed.

(** Whatever the file reader and the store answer, a create either leaves
    the list as it was or has been acknowledged with an id. *)
Lemma create_changes_the_list_only_when_acknowledged :
  forall toLowerCase env thumbs values st,
    thumbnails (exec (onUploadSubmit toLowerCase env thumbs values) st)
    = thumbnails st
    \/ exists file rest imageDataUrl docRefId,
         u_image values = Some (file :: rest)
         /\ env_readAsDataURL env file = Some imageDataUrl
         /\ getByteLength imageDataUrl <= MAX_DOC_SIZE_BYTES
         /\ env_addDoc env
              (mkNewThumbnailData (u_title values) (u_category values)
                 imageDataUrl (env_now env)) = inr docRefId.
Proof.
  intros lower env thumbs values st.
  destruct (u_image values) as [[|file rest]|] eqn:Hv;
    try (left; unfold onUploadSubmit; rewrite Hv; reflexivity).
  destruct (env_readAsDataURL env file) as [url|] eqn:Hread.
  - destruct (getByteLength url >? MAX_DOC_SIZE_BYTES) eqn:Hgt.
    + left. unfold onUploadSubmit. rewrite Hv. cbn [nth_error]. run_handler.
      rewrite Hread. cbn [fst snd]. rewrite Hgt. reflexivity.
    + destruct (env_addDoc env
                  (mkNewThumbnailData (u_title values) (u_category values) url
                     (env_now env))) as [error|docId] eqn:Hadd.
      * left. unfold onUploadSubmit. rewrite Hv. cbn [nth_error]. run_handler.
        rewrite Hread. cbn [fst snd]. rewrite Hgt, Hadd. reflexivity.
      * right. exists file, rest, url, docId.
        repeat split; auto.
        destruct (Z_le_gt_dec (getByteLength url) MAX_DOC_SIZE_BYTES) as [H|H];
          [exact H|].
        apply Z.gt_lt, Z.gtb_lt in H. congruence.
  - left. unfold onUploadSubmit. rewrite Hv. cbn [nth_error]. run_handler.
    rewrite Hread. reflexivity.
Qed.

(** A submission the schema refuses changes nothing at all. *)
Lemma refused_submission_does_nothing :
  forall toLowerCase env raw issues st,
    uploadSchema raw = inl issues ->
    submitUploadForm toLowerCase env raw st = (Normal tt, st).
Proof.
  intros lower env raw issues st H.
  unfold submitUploadForm, handleSubmit. rewrite H. reflexivity.
Qed.

(** C8: a file whose raw size is over 0.7 MiB (734003.2 bytes) is refused by
    the upload schema, so the submit handler never runs: no file is read or
    encoded and no request is made. A file at or below the limit passes
    this check. *)
Theorem oversized_file_is_refused_before_encoding :
  forall toLowerCase env raw file rest st,
    in_image raw = Some (file :: rest) ->
    ((7340032 # 10 < inject_Z (size file))%Q ->
       (exists issues,
          uploadSchema raw = inl issues
          /\ In (mkIssue (str "image") (str "Image must be less than 0.7MB."))
               issues)
       /\ exec (submitUploadForm toLowerCase env raw) st = st
       /\ fileReads (exec (submitUploadForm toLowerCase env raw) st)
          = fileReads st)
    /\ ((inject_Z (size file) <= 7340032 # 10)%Q ->
          imageIsSmallEnough (in_image raw) = true).
Proof.
  intros lower env raw file rest st Himg.
  assert (Hcmp : imageIsSmallEnough (in_image raw) = (size file <=? 734003)).
  { rewrite Himg. cbn [imageIsSmallEnough]. apply file_size_limit. }
  split; intros Hsize.
  - assert (Hbig : imageIsSmallEnough (in_image raw) = false).
    { rewrite Hcmp. apply Z.leb_gt.
      unfold Qlt in Hsize. cbn [Qnum Qden inject_Z] in Hsize. lia. }
    assert (Hrej : exists issues,
               uploadSchema raw = inl issues
               /\ In (mkIssue (str "image")
                        (str "Image must be less than 0.7MB.")) issues).
    { unfold uploadSchema, imageField. rewrite Hbig.
      destruct (titleField (in_title raw)) as [ti|t],
               (categoryField (in_category raw)) as [ci|c],
               (imageIsPresent (in_image raw));
        eexists; (split; [reflexivity|]);
        cbn [issuesOf app]; repeat rewrite in_app_iff; cbn [In]; auto 10. }
    destruct Hrej as [issues [Hrej Hin]].
    assert (Hst : exec (submitUploadForm lower env raw) st = st).
    { unfold exec. rewrite (refused_submission_does_nothing _ _ _ _ _ Hrej).
      reflexivity. }
    split; [exists issues; auto | split; [exact Hst | rewrite Hst; reflexivity]].
  - rewrite Hcmp. apply Z.leb_le.
    unfold Qle in Hsize. cbn [Qnum Qden inject_Z] in Hsize. lia.
Qed.

Lemma oversized_file_is_refused_before_encoding_witness :
  exec (submitUploadForm Sample.asciiLowerCase
          (Sample.store (Some Sample.pngUrl))
          (mkUploadInput (str "My Trip to Japan") (Some (str "Vlog"))
             (Some [mkFile (str "big.png") 734004])))
    Sample.loaded
  = Sample.loaded
  /\ imageIsSmallEnough (Some [mkFile (str "ok.png") 734003]) = true.
Proof.
  split.
  - apply (proj1 (oversized_file_is_refused_before_encoding
                    Sample.asciiLowerCase (Sample.store (Some Sample.pngUrl))
                    (mkUploadInput (str "My Trip to Japan") (Some (str "Vlog"))
                       (Some [mkFile (str "big.png") 734004]))
                    (mkFile (str "big.png") 734004) [] Sample.loaded eq_refl)).
    vm_compute. reflexivity.
  - apply (proj2 (oversized_file_is_refused_before_encoding
                    Sample.asciiLowerCase (Sample.store (Some Sample.pngUrl))
                    (mkUploadInput (str "My Trip to Japan") (Some (str "Vlog"))
                       (Some [mkFile (str "ok.png") 734003]))
                    (mkFile (str "ok.png") 734003) [] Sample.loaded eq_refl)).
    vm_compute. discriminate.
Defined.

(* ===================================================================== *)
(** ** Update *)
(* ===================================================================== *)

(** C4: after an acknowledged update of a record with a new title and
    category, the list has the same length and every position holds the
    record it held before, with the same id, image and creation time; the
    record with the edited id has the new title and category, every other
    record is unchanged. *)
Theorem update_changes_only_title_and_category :
  forall env st raw values editing,
    editSchema raw = inr values ->
    editingThumbnail st = Some editing ->
    env_updateDoc env (id editing) (e_title values) (e_category values)
      = inr tt ->
    let before := thumbnails st in
    let after := thumbnails (exec (submitEditForm env raw) st) in
    List.length after = List.length before
    /\ forall i t,
         nth_error before i = Some t ->
         exists t',
           nth_error after i = Some t'
           /\ id t' = id t
           /\ imageUrl t' = imageUrl t
           /\ createdAt t' = createdAt t
           /\ (id t = id editing ->
                 title t' = e_title values /\ category t' = e_category values)
           /\ (id t <> id editing -> t' = t).
Proof.
  intros env st raw values editing Hschema Hedit Hack before after.
  assert (E : after
              = map (fun t =>
                       if Js.eqb (id t) (id editing)
                       then mkThumbnail (id t) (e_title values)
                              (e_category values) (imageUrl t) (createdAt t)
                       else t) before).
  { subst after before. unfold submitEditForm, handleSubmit, exec.
    rewrite Hschema. unfold onEditSubmit. rewrite Hedit.
    run_handler. rewrite Hack. reflexivity. }
  rewrite E. split; [apply length_map|].
  intros i t Hi. rewrite nth_error_map, Hi. cbn [option_map].
  eexists; split; [reflexivity|].
  destruct (Js.eqb (id t) (id editing)) eqn:Heq.
  - apply JsFacts.eqb_eq in Heq. cbn [id imageUrl createdAt title category].
    split; [reflexivity|]. split; [reflexivity|]. split; [reflexivity|].
    split; [intros _; split; reflexivity | intros Hne; contradiction].
  - apply JsFacts.eqb_neq in Heq.
    split; [reflexivity|]. split; [reflexivity|]. split; [reflexivity|].
    split; [intros He; contradiction | intros _; reflexivity].
Qed.

Lemma update_changes_only_title_and_category_witness :
  let st :=
    mkState [Sample.t3; Sample.t2; Sample.t1] false true (Some Sample.t2)
      None false 0 [] [GetDocs] [] in
  let raw := mkEditInput (str "Pasta in 5 minutes") (Some (str "Tutorial")) in
  let values := mkEditValues (str "Pasta in 5 minutes") (str "Tutorial") in
  let before := thumbnails st in
  let after := thumbnails (exec (submitEditForm (Sample.store None) raw) st) in
  List.length after = List.length before
  /\ forall i t,
       nth_error before i = Some t ->
       exists t',
         nth_error after i = Some t'
         /\ id t' = id t
         /\ imageUrl t' = imageUrl t
         /\ createdAt t' = createdAt t
         /\ (id t = id Sample.t2 ->
               title t' = e_title values /\ category t' = e_category values)
         /\ (id t <> id Sample.t2 -> t' = t).
Proof.
  exact (update_changes_only_title_and_category (Sample.store None)
           (mkState [Sample.t3; Sample.t2; Sample.t1] false true
              (Some Sample.t2) None false 0 [] [GetDocs] [])
           (mkEditInput (str "Pasta in 5 minutes") (Some (str "Tutorial")))
           (mkEditValues (str "Pasta in 5 minutes") (str "Tutorial"))
           Sample.t2 eq_refl eq_refl eq_refl).
Defined.

(** The sample edit, evaluated: only the second record changes. *)
Example update_sample :
  thumbnails
    (exec (submitEditForm (Sample.store None)
             (mkEditInput (str "Pasta in 5 minutes") (Some (str "Tutorial"))))
       (mkState [Sample.t3; Sample.t2; Sample.t1] false true (Some Sample.t2)
          None false 0 [] [GetDocs] []))
  = [Sample.t3;
     mkThumbnail (str "doc2") (str "Pasta in 5 minutes") (str "Tutorial")
       Sample.pngUrl 1650000000000;
     Sample.t1].
Proof. vm_compute. reflexivity. Qed.

(** An update the store rejects leaves the list unchanged. *)
Lemma failed_update_leaves_the_list_unchanged :
  forall env thumbs values editing error st,
    env_updateDoc env (id editing) (e_title values) (e_category values)
      = inl error ->
    thumbnails (exec (onEditSubmit env thumbs (Some editing) values) st)
    = thumbnails st.
Proof.
  intros env thumbs values editing error st Hrej.
  unfold onEditSubmit. run_handler. rewrite Hrej. reflexivity.
Qed.

(* ===================================================================== *)
(** ** Delete *)
(* ===================================================================== *)

Lemma filter_all_kept {A} (p : A -> bool) (l : list A) :
  (forall x, In x l -> p x = true) -> filter p l = l.
Proof.
  induction l as [|a l IH]; intros H; [reflexivity|].
  cbn [filter]. rewrite (H a (or_introl eq_refl)), IH; [reflexivity|].
  intros x Hx. apply H. right. exact Hx.
Qed.

(** An acknowledged delete keeps, in order, the records with another id. *)
Lemma delete_filters_by_id :
  forall env thumbs thumbnailId thumbnailTitle st,
    env_deleteDoc env thumbnailId = inr tt ->
    thumbnails (exec (handleDelete env thumbs thumbnailId thumbnailTitle) st)
    = filter (fun t => negb (Js.eqb (id t) thumbnailId)) thumbs.
Proof.
  intros env thumbs X ttl st Hack.
  unfold handleDelete. run_handler. rewrite Hack. reflexivity.
Qed.

(** C5: an acknowledged delete of id X, on a list in which X is the id of
    one record, yields the list without that record; the other records stay,
    in their order. *)
Theorem delete_removes_exactly_the_record :
  forall env st thumbnailId thumbnailTitle l1 t l2,
    thumbnails st = l1 ++ t :: l2 ->
    id t = thumbnailId ->
    (forall u, In u (l1 ++ l2) -> id u <> thumbnailId) ->
    env_deleteDoc env thumbnailId = inr tt ->
    thumbnails
      (exec (handleDelete env (thumbnails st) thumbnailId thumbnailTitle) st)
    = l1 ++ l2.
Proof.
  intros env st X ttl l1 t l2 Hlist Hid Hothers Hack.
  rewrite (delete_filters_by_id _ _ _ _ _ Hack), Hlist.
  rewrite filter_app. cbn [filter].
  assert (Ht : negb (Js.eqb (id t) X) = false).
  { rewrite (proj2 (JsFacts.eqb_eq (id t) X) Hid). reflexivity. }
  rewrite Ht.
  rewrite !filter_all_kept; [reflexivity | |];
    intros u Hu; apply negb_true_iff, JsFacts.eqb_neq, Hothers, in_app_iff;
    auto.
Qed.

Lemma delete_removes_exactly_the_record_witness :
  thumbnails
    (exec (handleDelete (Sample.store None) (thumbnails Sample.loaded)
             (str "doc2") (str "How to Cook Pasta"))
       Sample.loaded)
  = [Sample.t3] ++ [Sample.t1].
Proof.
  apply (delete_removes_exactly_the_record (Sample.store None) Sample.loaded
           (str "doc2") (str "How to Cook Pasta") [Sample.t3] Sample.t2
           [Sample.t1]).
  - reflexivity.
  - reflexivity.
  - intros u [<- | [<- | []]]; vm_compute; discriminate.
  - reflexivity.
Defined.

(** A delete the store rejects leaves the list unchanged. *)
Lemma failed_delete_leaves_the_list_unchanged :
  forall env thumbs thumbnailId thumbnailTitle error st,
    env_deleteDoc env thumbnailId = inl error ->
    thumbnails (exec (handleDelete env thumbs thumbnailId thumbnailTitle) st)
    = thumbnails st.
Proof.
  intros env thumbs X ttl error st Hrej.
  unfold handleDelete. run_handler. rewrite Hrej. reflexivity.
Qed.

(* ===================================================================== *)
(** ** Filter and search *)
(* ===================================================================== *)

Lemma filter_twice {A} (p : A -> bool) (l : list A) :
  filter p (filter p l) = filter p l.
Proof.
  apply filter_all_kept. intros x Hx. apply filter_In in Hx. tauto.
Qed.

Lemma filter_swap {A} (p q : A -> bool) (l : list A) :
  filter p (filter q l) = filter q (filter p l).
Proof.
  induction l as [|a l IH]; [reflexivity|].
  cbn [filter]. destruct (p a) eqn:Hp, (q a) eqn:Hq; cbn [filter];
    rewrite ?Hp, ?Hq, IH; reflexivity.
Qed.

(** The filtered view holds exactly the records of the list that are in the
    active category (any category for All) and whose lower-cased title
    includes the lower-cased search term. *)
Lemma filteredThumbnails_In :
  forall toLowerCase thumbs activeCategory searchTerm t,
    In t (filteredThumbnails toLowerCase thumbs activeCategory searchTerm)
    <-> In t thumbs
        /\ (activeCategory = str "All" \/ category t = activeCategory)
        /\ Js.includes (toLowerCase (title t)) (toLowerCase searchTerm) = true.
Proof.
  intros lower thumbs cat term t. unfold filteredThumbnails.
  rewrite !filter_In, orb_true_iff, !JsFacts.eqb_eq. tauto.
Qed.

(** C6: filtering the filtered list again with the same category and search
    term gives the same list, and the category All with the empty search
    term gives the whole list in its order. *)
Theorem filter_is_idempotent_and_all_is_identity :
  forall toLowerCase : jsstring -> jsstring,
    toLowerCase [] = [] ->
    forall thumbs activeCategory searchTerm,
      filteredThumbnails toLowerCase
        (filteredThumbnails toLowerCase thumbs activeCategory searchTerm)
        activeCategory searchTerm
      = filteredThumbnails toLowerCase thumbs activeCategory searchTerm
      /\ filteredThumbnails toLowerCase thumbs (str "All") [] = thumbs.
Proof.
  intros lower Hempty thumbs cat term. split.
  - unfold filteredThumbnails.
    set (p := fun thumb : Thumbnail =>
                Js.includes (lower (title thumb)) (lower term)).
    set (q := fun thumb : Thumbnail =>
                Js.eqb cat (str "All") || Js.eqb (category thumb) cat).
    rewrite (filter_swap q p (filter q thumbs)).
    rewrite !filter_twice. reflexivity.
  - unfold filteredThumbnails. rewrite Hempty.
    rewrite !filter_all_kept; [reflexivity | |].
    + intros x _. reflexivity.
    + intros x _. apply JsFacts.includes_nil.
Qed.

Lemma filter_is_idempotent_and_all_is_identity_witness :
  filteredThumbnails Sample.asciiLowerCase
    (filteredThumbnails Sample.asciiLowerCase [Sample.t3; Sample.t2; Sample.t1]
       (str "Cooking") (str "PASTA"))
    (str "Cooking") (str "PASTA")
  = filteredThumbnails Sample.asciiLowerCase [Sample.t3; Sample.t2; Sample.t1]
      (str "Cooking") (str "PASTA")
  /\ filteredThumbnails Sample.asciiLowerCase [Sample.t3; Sample.t2; Sample.t1]
       (str "All") []
     = [Sample.t3; Sample.t2; Sample.t1].
Proof.
  exact (filter_is_idempotent_and_all_is_identity Sample.asciiLowerCase
           eq_refl [Sample.t3; Sample.t2; Sample.t1] (str "Cooking")
           (str "PASTA")).
Defined.

(** The sample search finds the pasta video whatever the case of the term. *)
Example filter_sample :
  filteredThumbnails Sample.asciiLowerCase [Sample.t3; Sample.t2; Sample.t1]
    (str "Cooking") (str "PASTA")
  = [Sample.t2].
Proof. vm_compute. reflexivity. Qed.

(* ===================================================================== *)
(** ** Categories *)
(* ===================================================================== *)

(** The schemas themselves do not check the category against the set:
    handed the filter value All, which no select of the page offers, they
    let it through and the create sends it on. The restriction to the set
    is the selects' (see the section on categories through the page). *)
Lemma sentinel_category_is_accepted :
  let raw :=
    mkUploadInput (str "My Trip to Japan") (Some (str "All"))
      (Some [Sample.photo]) in
  let env := Sample.store (Some Sample.pngUrl) in
  uploadSchema raw
  = inr (mkUploadValues (str "My Trip to Japan") (str "All")
           (Some [Sample.photo]))
  /\ storeCalls (exec (submitUploadForm Sample.asciiLowerCase env raw)
                   initialState)
     = [AddDoc (mkNewThumbnailData (str "My Trip to Japan") (str "All")
                  Sample.pngUrl 1700000000000)]
  /\ editSchema (mkEditInput (str "My Trip to Japan") (Some (str "All")))
     = inr (mkEditValues (str "My Trip to Japan") (str "All"))
  /\ ~ In (str "All")
         [str "Gaming"; str "Vlog"; str "Tutorial"; str "Lifestyle";
          str "Tech"; str "Cooking"; str "Education"].
Proof.
  cbv zeta. split; [reflexivity|]. split; [vm_compute; reflexivity|].
  split; [reflexivity|].
  intros H. repeat (destruct H as [H|H]; [vm_compute in H; discriminate|]).
  exact H.
Qed.

(** The items of the category selects are the seven categories, without
    All, and the two schemas accept every string as a category whenever the
    title and file checks pass. *)
Lemma schemas_accept_any_category :
  selectItems
  = [str "Gaming"; str "Vlog"; str "Tutorial"; str "Lifestyle"; str "Tech";
     str "Cooking"; str "Education"]
  /\ ~ In (str "All") selectItems
  /\ (forall t c img,
        3 <= Js.length t ->
        imageIsPresent img = true ->
        imageIsSmallEnough img = true ->
        uploadSchema (mkUploadInput t (Some c) img)
        = inr (mkUploadValues t c img))
  /\ (forall t c,
        3 <= Js.length t ->
        editSchema (mkEditInput t (Some c)) = inr (mkEditValues t c)).
Proof.
  split; [reflexivity|]. split.
  - intros H. vm_compute in H.
    repeat (destruct H as [H|H]; [discriminate|]). exact H.
  - split.
    + intros t c img Ht Hp Hs. apply uploadSchema_inr. cbn. auto 10.
    + intros t c Ht. apply editSchema_inr. cbn. auto.
Qed.

(* ===================================================================== *)
(** ** Download *)
(* ===================================================================== *)

Module DownloadFacts.
Import DownloadSpec.

(** Element 0 of a split is the text before the first separator. *)
Lemma split_first (c : Z) (s : jsstring) :
  nth_error (Js.split c s) 0 = Some (beforeFirst c s).
Proof.
  induction s as [|x r IH]; [reflexivity|].
  cbn [Js.split beforeFirst]. destruct (x =? c); [reflexivity|].
  destruct (Js.split c r) as [|w ws]; [discriminate IH|].
  cbn in IH |- *. congruence.
Qed.

(** Element 1 of a split is the text between the first separator and the
    next one (or the end); it is missing when there is no separator. *)
Lemma split_second (c : Z) (s : jsstring) :
  nth_error (Js.split c s) 1
  = option_map (beforeFirst c) (afterFirst c s).
Proof.
  induction s as [|x r IH]; [reflexivity|].
  cbn [Js.split afterFirst]. destruct (x =? c).
  - cbn [nth_error option_map]. apply split_first.
  - destruct (Js.split c r) as [|w ws] eqn:E.
    + exfalso. exact (JsFacts.split_nonempty c r E).
    + cbn [nth_error] in IH |- *. exact IH.
Qed.

(** What the code computes for every image URL: the text after the first
    ['/'] of the part before the first [';'], cut at the next ['/']. *)
Lemma extension_unfolded (imageUrl : jsstring) :
  extension imageUrl
  = orElse
      (option_map (beforeFirst slash)
         (afterFirst slash (beforeFirst semicolon imageUrl)))
      (str "png").
Proof.
  unfold extension. change 59 with semicolon. change 47 with slash.
  rewrite split_first, split_second. reflexivity.
Qed.

Lemma beforeFirst_absent (c : Z) (s : jsstring) :
  ~ In c s -> beforeFirst c s = s.
Proof.
  induction s as [|x r IH]; intros H; [reflexivity|].
  cbn [beforeFirst]. destruct (x =? c) eqn:E.
  - apply Z.eqb_eq in E. exfalso. apply H. left. exact E.
  - rewrite IH; [reflexivity|]. intros Hin. apply H. right. exact Hin.
Qed.

Lemma afterFirst_present (c : Z) (s : jsstring) :
  In c s -> exists r, afterFirst c s = Some r.
Proof.
  induction s as [|x r IH]; intros H; [destruct H|].
  cbn [afterFirst]. destruct (x =? c) eqn:E; [exists r; reflexivity|].
  apply IH. destruct H as [H|H]; [|exact H].
  apply Z.eqb_neq in E. congruence.
Qed.

(** The runs of a string, put together again, are the string. *)
Lemma runs_concat (s : jsstring) : List.concat (map snd (runs s)) = s.
Proof.
  induction s as [|c r IH]; [reflexivity|].
  cbn [runs]. destruct (runs r) as [|[ws run] rest].
  - cbn in IH |- *. congruence.
  - destruct (Bool.eqb ws (Js.isWhiteSpace c));
      cbn in IH |- *; congruence.
Qed.

(** Each run is not empty and is of one kind. *)
Lemma runs_uniform (s : jsstring) :
  Forall (fun r => snd r <> []
                   /\ Forall (fun c => Js.isWhiteSpace c = fst r) (snd r))
         (runs s).
Proof.
  induction s as [|c r IH]; [constructor|].
  cbn [runs]. destruct (runs r) as [|[ws run] rest].
  - repeat constructor. discriminate.
  - destruct (Bool.eqb ws (Js.isWhiteSpace c)) eqn:E.
    + apply eqb_prop in E. inversion IH as [|? ? [Hne Hall] Hrest]; subst.
      constructor; [|exact Hrest]. cbn [fst snd] in *.
      split; [discriminate | constructor; auto].
    + constructor; [|exact IH]. cbn [fst snd].
      split; [discriminate | repeat constructor].
Qed.

(** Runs are maximal: two neighbours are never of the same kind. *)
Lemma runs_maximal (s : jsstring) : alternating (runs s).
Proof.
  induction s as [|c r IH]; [exact I|].
  cbn [runs]. destruct (runs r) as [|[ws run] rest]; [exact I|].
  destruct (Bool.eqb ws (Js.isWhiteSpace c)) eqn:E.
  - destruct rest as [|b rest']; [exact I|]. exact IH.
  - split; [|exact IH]. cbn [fst]. apply eqb_false_iff in E. congruence.
Qed.

(** The global replace of [\s+] by an underscore is the replacement of
    every maximal run of white space by one underscore. *)
Lemma replaceWsFrom_runs (s : jsstring) :
  Js.replaceWsFrom false (str "_") s = underscoreRuns s
  /\ Js.replaceWsFrom true (str "_") s
     = match runs s with
       | (true, _) :: rest =>
           List.concat
             (map (fun r : bool * jsstring =>
                     if fst r then str "_" else snd r) rest)
       | _ => underscoreRuns s
       end.
Proof.
  unfold underscoreRuns.
  induction s as [|c r [IHf IHt]]; [split; reflexivity|].
  cbn [Js.replaceWsFrom runs].
  destruct (runs r) as [|[ws run] rest];
    destruct (Js.isWhiteSpace c) eqn:W.
  - rewrite IHt. split; reflexivity.
  - rewrite IHf. split; reflexivity.
  - destruct ws; cbn [Bool.eqb]; rewrite IHt; split; reflexivity.
  - destruct ws; cbn [Bool.eqb]; rewrite IHf; split; reflexivity.
Qed.

Lemma replace_is_underscoreRuns (s : jsstring) :
  Js.replaceWhiteSpaceRuns s (str "_") = underscoreRuns s.
Proof. apply replaceWsFrom_runs. Qed.

End DownloadFacts.

(** C10: for a record whose image is a data URI with a well-formed media
    type, the download's file name is the title with every maximal run of
    white space replaced by one underscore, a dot, and the MIME subtype (the
    text between the first ['/'] and the first [';']), or png when the URI
    has no subtype; the name depends on the record alone. *)
Theorem download_name_is_title_dot_subtype :
  forall imageUrl title,
    DownloadSpec.wellFormedMediaType imageUrl ->
    handleDownload imageUrl title
    = mkAnchor imageUrl (DownloadSpec.fileName imageUrl title).
Proof.
  intros imageUrl title [Hsemi Hsub].
  unfold handleDownload, DownloadSpec.fileName, DownloadSpec.mimeSubtype.
  rewrite DownloadFacts.replace_is_underscoreRuns.
  rewrite DownloadFacts.extension_unfolded.
  destruct (DownloadFacts.afterFirst_present _ _ Hsemi) as [rest ->].
  destruct (DownloadSpec.afterFirst DownloadSpec.slash
              (DownloadSpec.beforeFirst DownloadSpec.semicolon imageUrl))
    as [subtype|] eqn:E; cbn [option_map orElse]; [|reflexivity].
  rewrite DownloadFacts.beforeFirst_absent by (apply Hsub; reflexivity).
  destruct subtype; reflexivity.
Qed.

Lemma download_name_is_title_dot_subtype_witness :
  handleDownload (str "data:image/jpeg;base64,/9j/4AAQSkZJRg==")
    (32 :: str "My  Trip" ++ [9; 10] ++ str "to Japan")
  = mkAnchor (str "data:image/jpeg;base64,/9j/4AAQSkZJRg==")
      (DownloadSpec.fileName (str "data:image/jpeg;base64,/9j/4AAQSkZJRg==")
         (32 :: str "My  Trip" ++ [9; 10] ++ str "to Japan")).
Proof.
  apply (download_name_is_title_dot_subtype
           (str "data:image/jpeg;base64,/9j/4AAQSkZJRg==")
           (32 :: str "My  Trip" ++ [9; 10] ++ str "to Japan")).
  split.
  - vm_compute. auto 20.
  - intros subtype H. vm_compute in H. injection H as <-.
    intros Hin. vm_compute in Hin.
    repeat (destruct Hin as [Hin|Hin]; [discriminate|]). exact Hin.
Defined.

(** The sample download, evaluated. *)
Example download_sample :
  download
    (handleDownload (str "data:image/jpeg;base64,/9j/4AAQSkZJRg==")
       (32 :: str "My  Trip" ++ [9; 10] ++ str "to Japan"))
  = str "_My_Trip_to_Japan.jpeg".
Proof. vm_compute. reflexivity. Qed.

(** A data URI without a media type downloads as png. *)
Example download_without_subtype :
  download (handleDownload (str "data:;base64,/9j/4AAQ") (str "Cover"))
  = str "Cover.png".
Proof. vm_compute. reflexivity. Qed.

(* ===================================================================== *)
(** ** Critique *)
(* ===================================================================== *)

Module CritiqueFacts.
Import Critique.

Lemma score_in_range (v : option JsValue) (q : Q) :
  score v = Some q -> (0 <= q /\ q <= inject_Z 100)%Q.
Proof.
  unfold score. destruct v as [[| | n | | |]|]; try discriminate.
  destruct (Qle_bool 0 n && Qle_bool n (inject_Z 100)) eqn:E;
    [|discriminate].
  intros H; inversion H; subst.
  apply andb_true_iff in E. destruct E as [E1 E2].
  split; apply Qle_bool_iff; assumption.
Qed.

(** Every result the flow returns has its three scores in [0, 100]. *)
Lemma critique_scores_in_range :
  forall prompt imageDataUri output,
    critiqueThumbnail prompt imageDataUri = Some output ->
    (0 <= engagementScore output /\ engagementScore output <= inject_Z 100)%Q
    /\ (0 <= clarityScore output /\ clarityScore output <= inject_Z 100)%Q
    /\ (0 <= colorScore output /\ colorScore output <= inject_Z 100)%Q.
Proof.
  intros prompt uri output.
  unfold critiqueThumbnail, critiqueThumbnailFlow,
    CritiqueThumbnailOutputSchema.
  destruct (prompt uri) as [[| | | | | fields]|]; try discriminate.
  destruct (score (getField fields (str "engagementScore"))) eqn:He;
    [|discriminate].
  destruct (score (getField fields (str "clarityScore"))) eqn:Hc;
    [|discriminate].
  destruct (score (getField fields (str "colorScore"))) eqn:Hk;
    [|discriminate].
  destruct (zString _); [|discriminate].
  destruct (zArrayOfString _); [|discriminate].
  intros H; inversion H; subst;
    cbn [engagementScore clarityScore colorScore].
  split; [exact (score_in_range _ _ He)|].
  split; [exact (score_in_range _ _ Hc) | exact (score_in_range _ _ Hk)].
Qed.

End CritiqueFacts.

(** C9, where the code departs from it: the flow returns successfully an
    answer with one suggestion and an answer with five, since the output
    schema checks the items of the list and not their number. *)
Theorem critique_accepts_any_number_of_suggestions :
  (exists output,
     Critique.critiqueThumbnail (fun _ => Some CritiqueSample.oneSuggestion)
       Sample.pngUrl = Some output
     /\ List.length (Critique.suggestions output) = 1%nat)
  /\ (exists output,
        Critique.critiqueThumbnail
          (fun _ => Some CritiqueSample.fiveSuggestions) Sample.pngUrl
        = Some output
        /\ List.length (Critique.suggestions output) = 5%nat).
Proof.
  split; eexists; split; [vm_compute; reflexivity | reflexivity
                         | vm_compute; reflexivity | reflexivity].
Qed.

(* ===================================================================== *)
(** ** A session *)
(* ===================================================================== *)

(** Three records are loaded newest first, a fourth is created and lands at
    the head, the record of the third is deleted: the list is 4, 2, 1. *)
Example session_scenario :
  let env :=
    mkEnv (fun _ => Some Sample.pngUrl) 1700000000000
      (inr [Sample.t3; Sample.t2; Sample.t1])
      (fun _ => inr (str "doc4")) (fun _ _ _ => inr tt) (fun _ => inr tt) in
  let s1 := exec (fetchThumbnails env) initialState in
  let s2 := exec (submitUploadForm Sample.asciiLowerCase env Sample.upload) s1 in
  let s3 := exec (clickDelete env Sample.t3) s2 in
  map id (thumbnails s1) = [str "doc3"; str "doc2"; str "doc1"]
  /\ map id (thumbnails s2) = [str "doc4"; str "doc3"; str "doc2"; str "doc1"]
  /\ map id (thumbnails s3) = [str "doc4"; str "doc2"; str "doc1"]
  /\ List.length (storeCalls s3) = 3%nat.
Proof. vm_compute. repeat split; reflexivity. Qed.

(** The byte length counts the bytes of the encoding, not the code units:
    three euro signs are nine bytes, and a surrogate pair is four. *)
Example byte_length_sample :
  getByteLength [0x20AC; 0x20AC; 0x20AC] = 9
  /\ Js.length [0x20AC; 0x20AC; 0x20AC] = 3
  /\ getByteLength [0xD83D; 0xDE00] = 4.
Proof. vm_compute. repeat split; reflexivity. Qed.

(** Choosing a file reads it for the preview, whatever its size. *)
Example preview_reads_the_file :
  fileReads
    (exec (onImageChange (Sample.store (Some Sample.pngUrl))
             (Some [mkFile (str "big.png") 5000000]))
       initialState)
  = [mkFile (str "big.png") 5000000].
Proof. reflexivity. Qed.

(* ===================================================================== *)
(** ** Byte length and the form schema, further *)
(* ===================================================================== *)

(** X1: the byte length of a string is at least its length and at most
    three times its length, and the two are equal when every code unit is
    ASCII (as in the data URIs the file reader produces). *)
Theorem byte_length_bounds :
  forall s : jsstring,
    Js.length s <= getByteLength s <= 3 * Js.length s
    /\ (Forall (fun c => c < 128) s -> getByteLength s = Js.length s).
Proof.
  intros s. unfold getByteLength. split.
  - apply JsFacts.blobSize_bounds.
  - apply JsFacts.blobSize_ascii.
Qed.

Lemma byte_length_bounds_witness :
  Js.length Sample.pngUrl <= getByteLength Sample.pngUrl
    <= 3 * Js.length Sample.pngUrl
  /\ getByteLength Sample.pngUrl = Js.length Sample.pngUrl.
Proof.
  destruct (byte_length_bounds Sample.pngUrl) as [Hb Ha].
  split; [exact Hb|]. apply Ha.
  unfold Sample.pngUrl. vm_compute.
  repeat (constructor; [reflexivity|]). constructor.
Defined.

Lemma uploadSchema_issues (raw : UploadInput) :
  issuesOf (uploadSchema raw)
  = (if 3 <=? Js.length (in_title raw) then [] else [titleIssue])
    ++ (match in_category raw with Some _ => [] | None => [categoryIssue] end)
    ++ (if imageIsPresent (in_image raw) then [] else [imageRequiredIssue])
    ++ (if imageIsSmallEnough (in_image raw) then [] else [imageTooBigIssue]).
Proof.
  unfold uploadSchema, titleField, categoryField, imageField.
  destruct (3 <=? Js.length (in_title raw)), (in_category raw),
    (imageIsPresent (in_image raw)), (imageIsSmallEnough (in_image raw));
    reflexivity.
Qed.

Lemma imageIsPresent_one (files : option (list File)) :
  imageIsPresent files = true <-> exists file, files = Some [file].
Proof.
  destruct files as [[|f [|g r]]|]; cbn; split;
    try discriminate; try (intros [file H]; discriminate).
  - intros _. exists f. reflexivity.
  - reflexivity.
Qed.

Lemma imageIsSmallEnough_first (files : option (list File)) :
  imageIsSmallEnough files = true
  <-> exists file rest, files = Some (file :: rest) /\ size file <= 734003.
Proof.
  destruct files as [[|f r]|]; cbn [imageIsSmallEnough].
  - split; [discriminate | intros (? & ? & H & _); discriminate].
  - rewrite file_size_limit, Z.leb_le. split.
    + intros H. exists f, r. auto.
    + intros (f' & r' & H & Hs). inversion H; subst. exact Hs.
  - split; [discriminate | intros (? & ? & H & _); discriminate].
Qed.

(** X2: the upload schema raises each of its four issues exactly when the
    check it belongs to fails: the title issue for a title of fewer than 3
    code units, the category issue for a missing category, the required
    issue unless exactly one file is chosen, the size issue unless there is
    a first file of at most 734003 bytes; it accepts exactly when it raises
    none. With no file chosen both image issues are raised. *)
Theorem upload_schema_raises_each_failed_check :
  forall raw : UploadInput,
    let issues := issuesOf (uploadSchema raw) in
    (In titleIssue issues <-> Js.length (in_title raw) < 3)
    /\ (In categoryIssue issues <-> in_category raw = None)
    /\ (In imageRequiredIssue issues
        <-> ~ exists file, in_image raw = Some [file])
    /\ (In imageTooBigIssue issues
        <-> ~ exists file rest,
                in_image raw = Some (file :: rest) /\ size file <= 734003)
    /\ (issues = [] <-> exists values, uploadSchema raw = inr values).
Proof.
  intros raw issues. subst issues. rewrite uploadSchema_issues.
  rewrite <- imageIsPresent_one, <- imageIsSmallEnough_first.
  assert (Hacc : (exists values, uploadSchema raw = inr values)
                 <-> 3 <= Js.length (in_title raw)
                     /\ in_category raw <> None
                     /\ imageIsPresent (in_image raw) = true
                     /\ imageIsSmallEnough (in_image raw) = true).
  { split.
    - intros [values H]. apply uploadSchema_inr in H.
      destruct H as (Ht & Hc & Hp & Hs & _). rewrite Hc. repeat split; auto.
      discriminate.
    - intros (Ht & Hc & Hp & Hs).
      destruct (in_category raw) as [c|] eqn:Ec; [|contradiction].
      exists (mkUploadValues (in_title raw) c (in_image raw)).
      apply uploadSchema_inr. cbn. auto 10. }
  rewrite Hacc.
  destruct (3 <=? Js.length (in_title raw)) eqn:Ht;
    [apply Z.leb_le in Ht | apply Z.leb_gt in Ht];
    destruct (in_category raw) as [c|];
    destruct (imageIsPresent (in_image raw));
    destruct (imageIsSmallEnough (in_image raw));
    cbn [app In];
    unfold titleIssue, categoryIssue, imageRequiredIssue, imageTooBigIssue;
    repeat split; intros; 
    repeat match goal with
           | H : _ \/ _ |- _ => destruct H
           | H : _ /\ _ |- _ => destruct H
           | H : False |- _ => destruct H
           | H : mkIssue _ _ = mkIssue _ _ |- _ => discriminate H
           | H : _ :: _ = [] |- _ => discriminate H
           | H : Some _ = None |- _ => discriminate H
           | H : None = Some _ |- _ => discriminate H
           | H : true = false |- _ => discriminate H
           | H : false = true |- _ => discriminate H
           | H : ?x <> ?x |- _ => exfalso; apply H; reflexivity
           | H : ~ (?a = ?a) |- _ => exfalso; apply H; reflexivity
           end;
    try lia; try discriminate; try reflexivity; auto 10;
    try (intros H'; discriminate H').
Qed.

(* ===================================================================== *)
(** ** Create, further *)
(* ===================================================================== *)

Ltac upload_cases Hv :=
  unfold onUploadSubmit; rewrite Hv; cbn [nth_error]; run_handler.

(** X3: once a file is there, the submit handler always completes (every
    failure is caught) and always ends with the uploading flag off and the
    progress at 0, whatever the file reader and the store answer. *)
Theorem upload_always_completes_and_resets_progress :
  forall toLowerCase env thumbs values file rest st,
    u_image values = Some (file :: rest) ->
    let m := onUploadSubmit toLowerCase env thumbs values in
    completes m st = true
    /\ isUploading (exec m st) = false
    /\ uploadProgress (exec m st) = 0.
Proof.
  intros lower env thumbs values file rest st Hv m. subst m.
  unfold completes. upload_cases Hv.
  destruct (env_readAsDataURL env file) as [url|]; cbn [fst snd];
    [|repeat split; reflexivity].
  destruct (getByteLength url >? MAX_DOC_SIZE_BYTES); cbn [fst snd];
    [repeat split; reflexivity|].
  destruct (env_addDoc env _); cbn [fst snd]; repeat split; reflexivity.
Qed.

Lemma upload_always_completes_and_resets_progress_witness :
  let m :=
    onUploadSubmit Sample.asciiLowerCase (Sample.brokenStore None) []
      Sample.values in
  completes m Sample.loaded = true
  /\ isUploading (exec m Sample.loaded) = false
  /\ uploadProgress (exec m Sample.loaded) = 0.
Proof.
  exact (upload_always_completes_and_resets_progress Sample.asciiLowerCase
           (Sample.brokenStore None) [] Sample.values Sample.photo []
           Sample.loaded eq_refl).
Defined.

(** X4: when the file cannot be read, the rejection is not an Error object,
    so the user gets the generic message; the file was read once and no
    request reached the store. *)
Theorem unreadable_file_is_reported_generically :
  forall toLowerCase env thumbs values file rest st,
    Js.includes (toLowerCase (str "An unknown error occurred."))
      (str "firestore") = false ->
    u_image values = Some (file :: rest) ->
    env_readAsDataURL env file = None ->
    let st' := exec (onUploadSubmit toLowerCase env thumbs values) st in
    toasts st'
    = toasts st ++ [mkToast (str "Upload Failed") genericUploadError
                      Destructive]
    /\ storeCalls st' = storeCalls st
    /\ fileReads st' = fileReads st ++ [file].
Proof.
  intros lower env thumbs values file rest st Hlower Hv Hread st'. subst st'.
  upload_cases Hv. rewrite Hread. cbn [fst snd].
  change (Js.includes (str "An unknown error occurred.") (str "too large"))
    with false.
  rewrite Hlower. repeat split; reflexivity.
Qed.

Lemma unreadable_file_is_reported_generically_witness :
  let st' :=
    exec (onUploadSubmit Sample.asciiLowerCase (Sample.store None) []
            Sample.values) Sample.loaded in
  toasts st'
  = toasts Sample.loaded
      ++ [mkToast (str "Upload Failed") genericUploadError Destructive]
  /\ storeCalls st' = storeCalls Sample.loaded
  /\ fileReads st' = fileReads Sample.loaded ++ [Sample.photo].
Proof.
  apply (unreadable_file_is_reported_generically Sample.asciiLowerCase
           (Sample.store None) [] Sample.values Sample.photo [] Sample.loaded).
  - vm_compute. reflexivity.
  - reflexivity.
  - reflexivity.
Defined.

(** X5: a write the store rejects is reported by the text of the error: a
    message containing "too large" is shown as it is, otherwise a message
    whose lower-casing contains "firestore" gives the database message, and
    any other message the generic one. The request was made and the list is
    unchanged. *)
Theorem store_rejection_is_reported_by_its_text :
  forall toLowerCase env thumbs values file rest imageDataUrl message st,
    u_image values = Some (file :: rest) ->
    env_readAsDataURL env file = Some imageDataUrl ->
    getByteLength imageDataUrl <= MAX_DOC_SIZE_BYTES ->
    env_addDoc env
      (mkNewThumbnailData (u_title values) (u_category values) imageDataUrl
         (env_now env)) = inl (ErrorObject message) ->
    let st' := exec (onUploadSubmit toLowerCase env thumbs values) st in
    let shown text :=
      toasts st' = toasts st ++ [mkToast (str "Upload Failed") text
                                   Destructive] in
    (Js.includes message (str "too large") = true -> shown message)
    /\ (Js.includes message (str "too large") = false ->
        Js.includes (toLowerCase message) (str "firestore") = true ->
        shown databaseUploadError)
    /\ (Js.includes message (str "too large") = false ->
        Js.includes (toLowerCase message) (str "firestore") = false ->
        shown genericUploadError)
    /\ storeCalls st'
       = storeCalls st
           ++ [AddDoc (mkNewThumbnailData (u_title values) (u_category values)
                         imageDataUrl (env_now env))]
    /\ thumbnails st' = thumbnails st.
Proof.
  intros lower env thumbs values file rest url message st Hv Hread Hsize Hadd
    st' shown. subst st' shown.
  assert (Hgt : (getByteLength url >? MAX_DOC_SIZE_BYTES) = false).
  { destruct (getByteLength url >? MAX_DOC_SIZE_BYTES) eqn:H; [|reflexivity].
    apply Z.gtb_lt in H. lia. }
  upload_cases Hv. rewrite Hread. cbn [fst snd]. rewrite Hgt.
  cbn [d_title d_category d_imageUrl d_createdAt]. rewrite Hadd.
  cbn [fst snd].
  split; [intros ->; reflexivity|].
  split; [intros -> ->; reflexivity|].
  split; [intros -> ->; reflexivity|].
  destruct (Js.includes message (str "too large"));
    [|destruct (Js.includes (lower message) (str "firestore"))];
    split; reflexivity.
Qed.

Lemma store_rejection_is_reported_by_its_text_witness :
  let st' :=
    exec (onUploadSubmit Sample.asciiLowerCase
            (Sample.brokenStore (Some Sample.pngUrl)) [] Sample.values)
      Sample.loaded in
  toasts st'
  = toasts Sample.loaded
      ++ [mkToast (str "Upload Failed") databaseUploadError Destructive].
Proof.
  apply (store_rejection_is_reported_by_its_text Sample.asciiLowerCase
           (Sample.brokenStore (Some Sample.pngUrl)) [] Sample.values
           Sample.photo [] Sample.pngUrl (str "Firestore: permission denied")
           Sample.loaded eq_refl eq_refl).
  - vm_compute. discriminate.
  - reflexivity.
  - vm_compute. reflexivity.
  - vm_compute. reflexivity.
Defined.

(** X6: an acknowledged create, besides the list, closes the upload dialog,
    clears the preview, shows one success toast naming the title, has read
    the file once and sent one request, and leaves the edit state alone. *)
Theorem acknowledged_create_side_effects :
  forall toLowerCase env thumbs values file rest imageDataUrl docRefId st,
    u_image values = Some (file :: rest) ->
    env_readAsDataURL env file = Some imageDataUrl ->
    getByteLength imageDataUrl <= MAX_DOC_SIZE_BYTES ->
    env_addDoc env
      (mkNewThumbnailData (u_title values) (u_category values) imageDataUrl
         (env_now env)) = inr docRefId ->
    exec (onUploadSubmit toLowerCase env thumbs values) st
    = mkState
        (mkThumbnail docRefId (u_title values) (u_category values)
           imageDataUrl (env_now env) :: thumbs)
        false (isEditDialogOpen st) (editingThumbnail st) None false 0
        (toasts st
           ++ [mkToast (str "Success!")
                 (str "Thumbnail " ++ dquote ++ u_title values ++ dquote
                    ++ str " has been added.")
                 DefaultVariant])
        (storeCalls st
           ++ [AddDoc (mkNewThumbnailData (u_title values) (u_category values)
                         imageDataUrl (env_now env))])
        (fileReads st ++ [file]).
Proof.
  intros lower env thumbs values file rest url docId st Hv Hread Hsize Hadd.
  assert (Hgt : (getByteLength url >? MAX_DOC_SIZE_BYTES) = false).
  { destruct (getByteLength url >? MAX_DOC_SIZE_BYTES) eqn:H; [|reflexivity].
    apply Z.gtb_lt in H. lia. }
  upload_cases Hv. rewrite Hread. cbn [fst snd]. rewrite Hgt.
  cbn [d_title d_category d_imageUrl d_createdAt]. rewrite Hadd. reflexivity.
Qed.

Lemma acknowledged_create_side_effects_witness :
  exec (onUploadSubmit Sample.asciiLowerCase
          (Sample.store (Some Sample.pngUrl)) (thumbnails Sample.loaded)
          Sample.values)
    Sample.loaded
  = mkState
      (mkThumbnail (str "doc4") (u_title Sample.values)
         (u_category Sample.values) Sample.pngUrl
         (env_now (Sample.store (Some Sample.pngUrl)))
         :: thumbnails Sample.loaded)
      false (isEditDialogOpen Sample.loaded) (editingThumbnail Sample.loaded)
      None false 0
      (toasts Sample.loaded
         ++ [mkToast (str "Success!")
               (str "Thumbnail " ++ dquote ++ u_title Sample.values ++ dquote
                  ++ str " has been added.")
               DefaultVariant])
      (storeCalls Sample.loaded
         ++ [AddDoc (mkNewThumbnailData (u_title Sample.values)
                       (u_category Sample.values) Sample.pngUrl
                       (env_now (Sample.store (Some Sample.pngUrl))))])
      (fileReads Sample.loaded ++ [Sample.photo]).
Proof.
  apply (acknowledged_create_side_effects Sample.asciiLowerCase
           (Sample.store (Some Sample.pngUrl)) (thumbnails Sample.loaded)
           Sample.values Sample.photo [] Sample.pngUrl (str "doc4")
           Sample.loaded eq_refl eq_refl).
  - vm_compute. discriminate.
  - reflexivity.
Defined.

(** X7: a failed create leaves the upload dialog open or closed as it was
    and keeps the preview, so the user can try again from the same form;
    the edit dialog is not touched either. *)
Theorem failed_create_keeps_the_dialog :
  forall toLowerCase env thumbs values st,
    CreateFails env values ->
    let st' := exec (onUploadSubmit toLowerCase env thumbs values) st in
    isUploadDialogOpen st' = isUploadDialogOpen st
    /\ imagePreview st' = imagePreview st
    /\ isEditDialogOpen st' = isEditDialogOpen st
    /\ editingThumbnail st' = editingThumbnail st.
Proof.
  intros lower env thumbs values st
    [file rest Hv Hread | file rest url Hv Hread Hsize
    | file rest url error Hv Hread Hsize Hadd] st'; subst st';
    upload_cases Hv; rewrite Hread; cbn [fst snd].
  - repeat split; reflexivity.
  - assert (Hgt : (getByteLength url >? MAX_DOC_SIZE_BYTES) = true)
      by (apply Z.gtb_lt; exact Hsize).
    rewrite Hgt. repeat split; reflexivity.
  - assert (Hgt : (getByteLength url >? MAX_DOC_SIZE_BYTES) = false).
    { destruct (getByteLength url >? MAX_DOC_SIZE_BYTES) eqn:H; [|reflexivity].
      apply Z.gtb_lt in H. lia. }
    rewrite Hgt. rewrite Hadd. repeat split; reflexivity.
Qed.

Lemma failed_create_keeps_the_dialog_witness :
  let st :=
    mkState [Sample.t1] true false None (Some Sample.pngUrl) false 0 [] [] [] in
  let st' :=
    exec (onUploadSubmit Sample.asciiLowerCase (Sample.store None) [Sample.t1]
            Sample.values) st in
  isUploadDialogOpen st' = isUploadDialogOpen st
  /\ imagePreview st' = imagePreview st
  /\ isEditDialogOpen st' = isEditDialogOpen st
  /\ editingThumbnail st' = editingThumbnail st.
Proof.
  apply (failed_create_keeps_the_dialog Sample.asciiLowerCase
           (Sample.store None) [Sample.t1] Sample.values).
  apply (encoding_error _ _ Sample.photo []); reflexivity.
Defined.

(** X8: the first version of the page has no size check: whatever the size
    of the encoded image, the write is sent to the store. *)
Theorem first_page_sends_any_size :
  forall env thumbs values file rest imageDataUrl st,
    u_image values = Some (file :: rest) ->
    env_readAsDataURL env file = Some imageDataUrl ->
    storeCalls (exec (FirstPage.onSubmit env thumbs values) st)
    = storeCalls st
        ++ [AddDoc (mkNewThumbnailData (u_title values) (u_category values)
                      imageDataUrl (env_now env))].
Proof.
  intros env thumbs values file rest url st Hv Hread.
  unfold FirstPage.onSubmit. rewrite Hv. cbn [nth_error].
  run_handler. rewrite Hread. cbn [fst snd].
  destruct (env_addDoc env _); reflexivity.
Qed.

Lemma first_page_sends_any_size_witness :
  storeCalls
    (exec (FirstPage.onSubmit (Sample.store (Some Sample.overLimitUrl)) []
             Sample.values) initialState)
  = storeCalls initialState
      ++ [AddDoc (mkNewThumbnailData (u_title Sample.values)
                    (u_category Sample.values) Sample.overLimitUrl
                    (env_now (Sample.store (Some Sample.overLimitUrl))))].
Proof.
  exact (first_page_sends_any_size (Sample.store (Some Sample.overLimitUrl))
           [] Sample.values Sample.photo [] Sample.overLimitUrl initialState
           eq_refl eq_refl).
Defined.

(* ===================================================================== *)
(** ** Update, delete, load and preview, further *)
(* ===================================================================== *)

(** X9: an acknowledged update sends one request carrying the id, the new
    title and the new category, closes the edit dialog, forgets the edited
    record and shows one success toast; a rejected update sends the same
    request, shows one failure toast and leaves the list, the dialog and
    the edited record as they were. *)
Theorem update_side_effects :
  forall env thumbs values editing st,
    let request :=
      UpdateDoc (id editing) (e_title values) (e_category values) in
    let st' := exec (onEditSubmit env thumbs (Some editing) values) st in
    (env_updateDoc env (id editing) (e_title values) (e_category values)
       = inr tt ->
     isEditDialogOpen st' = false
     /\ editingThumbnail st' = None
     /\ toasts st'
        = toasts st ++ [mkToast (str "Success!")
                          (str "Thumbnail details have been updated.")
                          DefaultVariant]
     /\ storeCalls st' = storeCalls st ++ [request])
    /\ (forall error,
          env_updateDoc env (id editing) (e_title values) (e_category values)
            = inl error ->
          thumbnails st' = thumbnails st
          /\ isEditDialogOpen st' = isEditDialogOpen st
          /\ editingThumbnail st' = editingThumbnail st
          /\ toasts st'
             = toasts st
                 ++ [mkToast (str "Update Failed")
                       (str "There was an error updating the thumbnail. Please try again.")
                       Destructive]
          /\ storeCalls st' = storeCalls st ++ [request]).
Proof.
  intros env thumbs values editing st request st'. subst request st'.
  unfold onEditSubmit. run_handler. split.
  - intros ->. repeat split; reflexivity.
  - intros error ->. repeat split; reflexivity.
Qed.

Lemma update_side_effects_witness :
  let st :=
    mkState [Sample.t3; Sample.t2; Sample.t1] false true (Some Sample.t2)
      None false 0 [] [GetDocs] [] in
  let values := mkEditValues (str "Pasta in 5 minutes") (str "Tutorial") in
  (let st' :=
     exec (onEditSubmit (Sample.store None) (thumbnails st) (Some Sample.t2)
             values) st in
   isEditDialogOpen st' = false
   /\ editingThumbnail st' = None
   /\ toasts st'
      = toasts st ++ [mkToast (str "Success!")
                        (str "Thumbnail details have been updated.")
                        DefaultVariant]
   /\ storeCalls st'
      = storeCalls st
          ++ [UpdateDoc (id Sample.t2) (e_title values) (e_category values)])
  /\ (let st' :=
        exec (onEditSubmit (Sample.brokenStore None) (thumbnails st)
                (Some Sample.t2) values) st in
      thumbnails st' = thumbnails st
      /\ isEditDialogOpen st' = isEditDialogOpen st
      /\ editingThumbnail st' = editingThumbnail st
      /\ toasts st'
         = toasts st
             ++ [mkToast (str "Update Failed")
                   (str "There was an error updating the thumbnail. Please try again.")
                   Destructive]
      /\ storeCalls st'
         = storeCalls st
             ++ [UpdateDoc (id Sample.t2) (e_title values)
                   (e_category values)]).
Proof.
  intros st values. split.
  - apply (proj1 (update_side_effects (Sample.store None) (thumbnails st)
                    values Sample.t2 st)).
    reflexivity.
  - apply (proj2 (update_side_effects (Sample.brokenStore None)
                    (thumbnails st) values Sample.t2 st)
             (ErrorObject (str "Firestore: permission denied"))).
    reflexivity.
Defined.

Lemma same_id_same_record (l : list Thumbnail) (a b : Thumbnail) :
  distinctIds l -> In a l -> In b l -> id a = id b -> a = b.
Proof.
  unfold distinctIds. induction l as [|x l IH]; intros Hnd Ha Hb Hid;
    [destruct Ha|].
  cbn [map] in Hnd. inversion Hnd as [|? ? Hx Hl]; subst.
  destruct Ha as [<-|Ha], Hb as [<-|Hb].
  - reflexivity.
  - exfalso. apply Hx. rewrite Hid. apply in_map. exact Hb.
  - exfalso. apply Hx. rewrite <- Hid. apply in_map. exact Ha.
  - apply IH; assumption.
Qed.

(** X10: opening the edit dialog on a record of the list and saving it with
    the title and category it already has changes nothing in the list, when
    the ids of the list are distinct and the store acknowledges. *)
Theorem saving_unchanged_details_keeps_the_list :
  forall env st thumbnail,
    distinctIds (thumbnails st) ->
    In thumbnail (thumbnails st) ->
    3 <= Js.length (title thumbnail) ->
    env_updateDoc env (id thumbnail) (title thumbnail) (category thumbnail)
      = inr tt ->
    let opened := exec (handleEditDialogOpen thumbnail) st in
    let saved :=
      exec (submitEditForm env
              (mkEditInput (title thumbnail) (Some (category thumbnail))))
        opened in
    thumbnails saved = thumbnails st.
Proof.
  intros env st t Hnd Hin Hlen Hack opened saved. subst saved opened.
  unfold submitEditForm, handleSubmit.
  assert (Hs : editSchema (mkEditInput (title t) (Some (category t)))
               = inr (mkEditValues (title t) (category t))).
  { apply editSchema_inr. cbn. auto. }
  unfold handleEditDialogOpen. run_handler. rewrite Hs.
  unfold onEditSubmit. run_handler.
  cbn [e_title e_category]. rewrite Hack. cbn [fst snd thumbnails].
  rewrite <- (map_id (thumbnails st)) at 2. apply map_ext_in.
  intros u Hu. destruct (Js.eqb (id u) (id t)) eqn:E; [|reflexivity].
  apply JsFacts.eqb_eq in E.
  rewrite <- (same_id_same_record _ _ _ Hnd Hu Hin E).
  destruct u; reflexivity.
Qed.

Lemma saving_unchanged_details_keeps_the_list_witness :
  let opened := exec (handleEditDialogOpen Sample.t2) Sample.loaded in
  let saved :=
    exec (submitEditForm (Sample.store None)
            (mkEditInput (title Sample.t2) (Some (category Sample.t2))))
      opened in
  thumbnails saved = thumbnails Sample.loaded.
Proof.
  apply (saving_unchanged_details_keeps_the_list (Sample.store None)
           Sample.loaded Sample.t2).
  - unfold distinctIds. vm_compute.
    repeat (constructor;
            [intros H; repeat (destruct H as [H|H]; [discriminate|]); exact H|]).
    constructor.
  - right. left. reflexivity.
  - vm_compute. discriminate.
  - reflexivity.
Defined.

(** X11: after an acknowledged delete of an id, whatever the list held, no
    record with that id is left, the records with another id are all still
    there, the list is not longer, and a list that held no such id is
    unchanged. *)
Theorem acknowledged_delete_removes_every_match :
  forall env thumbs thumbnailId thumbnailTitle st,
    env_deleteDoc env thumbnailId = inr tt ->
    let after :=
      thumbnails
        (exec (handleDelete env thumbs thumbnailId thumbnailTitle) st) in
    (forall t, In t after <-> In t thumbs /\ id t <> thumbnailId)
    /\ ~ In thumbnailId (map id after)
    /\ (List.length after <= List.length thumbs)%nat
    /\ (~ In thumbnailId (map id thumbs) -> after = thumbs).
Proof.
  intros env thumbs X ttl st Hack after. subst after.
  rewrite (delete_filters_by_id _ _ _ _ _ Hack).
  assert (Hin : forall t,
             In t (filter (fun t => negb (Js.eqb (id t) X)) thumbs)
             <-> In t thumbs /\ id t <> X).
  { intros t. rewrite filter_In, negb_true_iff, JsFacts.eqb_neq. tauto. }
  split; [exact Hin|]. split; [|split].
  - intros H. apply in_map_iff in H. destruct H as (t & Hid & Ht).
    apply Hin in Ht. tauto.
  - apply filter_length_le.
  - intros Habsent. apply filter_all_kept. intros t Ht.
    apply negb_true_iff, JsFacts.eqb_neq. intros Hid. apply Habsent.
    rewrite <- Hid. apply in_map. exact Ht.
Qed.

Lemma acknowledged_delete_removes_every_match_witness :
  let after :=
    thumbnails
      (exec (handleDelete (Sample.store None) (thumbnails Sample.loaded)
               (str "doc9") (str "Gone already"))
         Sample.loaded) in
  (forall t,
     In t after <-> In t (thumbnails Sample.loaded) /\ id t <> str "doc9")
  /\ ~ In (str "doc9") (map id after)
  /\ (List.length after <= List.length (thumbnails Sample.loaded))%nat
  /\ (~ In (str "doc9") (map id (thumbnails Sample.loaded)) ->
      after = thumbnails Sample.loaded).
Proof.
  exact (acknowledged_delete_removes_every_match (Sample.store None)
           (thumbnails Sample.loaded) (str "doc9") (str "Gone already")
           Sample.loaded eq_refl).
Defined.

(** X12: a delete the store rejects changes the state in two places only:
    the request is in the trace and one failure toast is shown; the record
    is still in the list. *)
Theorem rejected_delete_only_reports :
  forall env thumbs thumbnailId thumbnailTitle error st,
    env_deleteDoc env thumbnailId = inl error ->
    exec (handleDelete env thumbs thumbnailId thumbnailTitle) st
    = mkState (thumbnails st) (isUploadDialogOpen st) (isEditDialogOpen st)
        (editingThumbnail st) (imagePreview st) (isUploading st)
        (uploadProgress st)
        (toasts st
           ++ [mkToast (str "Delete Failed")
                 (str "There was an error deleting the thumbnail. Please try again.")
                 Destructive])
        (storeCalls st ++ [DeleteDoc thumbnailId]) (fileReads st).
Proof.
  intros env thumbs X ttl error st Hrej.
  unfold handleDelete. run_handler. rewrite Hrej. reflexivity.
Qed.

Lemma rejected_delete_only_reports_witness :
  exec (handleDelete (Sample.brokenStore None) (thumbnails Sample.loaded)
          (str "doc2") (str "How to Cook Pasta")) Sample.loaded
  = mkState (thumbnails Sample.loaded) (isUploadDialogOpen Sample.loaded)
      (isEditDialogOpen Sample.loaded) (editingThumbnail Sample.loaded)
      (imagePreview Sample.loaded) (isUploading Sample.loaded)
      (uploadProgress Sample.loaded)
      (toasts Sample.loaded
         ++ [mkToast (str "Delete Failed")
               (str "There was an error deleting the thumbnail. Please try again.")
               Destructive])
      (storeCalls Sample.loaded ++ [DeleteDoc (str "doc2")])
      (fileReads Sample.loaded).
Proof.
  exact (rejected_delete_only_reports (Sample.brokenStore None)
           (thumbnails Sample.loaded) (str "doc2") (str "How to Cook Pasta")
           (ErrorObject (str "Firestore: permission denied")) Sample.loaded
           eq_refl).
Defined.

(** X13: loading sends one query; its result becomes the list as it is
    (order included), and a failed query leaves the list as it was and
    shows one failure toast. Loading never throws. *)
Theorem load_replaces_the_list_or_reports :
  forall env st,
    let st' := exec (fetchThumbnails env) st in
    completes (fetchThumbnails env) st = true
    /\ storeCalls st' = storeCalls st ++ [GetDocs]
    /\ (forall fetched,
          env_getDocs env = inr fetched ->
          thumbnails st' = fetched /\ toasts st' = toasts st)
    /\ (forall error,
          env_getDocs env = inl error ->
          thumbnails st' = thumbnails st
          /\ toasts st'
             = toasts st
                 ++ [mkToast (str "Loading Failed")
                       (str "Could not fetch thumbnails. Make sure Firestore is set up correctly.")
                       Destructive]).
Proof.
  intros env st st'. subst st'. unfold completes, fetchThumbnails.
  run_handler.
  destruct (env_getDocs env) as [error|fetched]; cbn [fst snd];
    (split; [reflexivity|]); (split; [reflexivity|]); split;
    intros x Hx; inversion Hx; subst; split; reflexivity.
Qed.

Lemma load_replaces_the_list_or_reports_witness :
  thumbnails
    (exec (fetchThumbnails
             (mkEnv (fun _ => None) 1700000000000
                (inr [Sample.t3; Sample.t2; Sample.t1])
                (fun _ => inr (str "doc4")) (fun _ _ _ => inr tt)
                (fun _ => inr tt)))
       initialState)
  = [Sample.t3; Sample.t2; Sample.t1]
  /\ thumbnails (exec (fetchThumbnails (Sample.brokenStore None)) Sample.loaded)
     = thumbnails Sample.loaded.
Proof.
  split.
  - apply (proj1 (proj2 (proj2 (load_replaces_the_list_or_reports
             (mkEnv (fun _ => None) 1700000000000
                (inr [Sample.t3; Sample.t2; Sample.t1])
                (fun _ => inr (str "doc4")) (fun _ _ _ => inr tt)
                (fun _ => inr tt))
             initialState)))
             [Sample.t3; Sample.t2; Sample.t1] eq_refl).
  - apply (proj2 (proj2 (proj2 (load_replaces_the_list_or_reports
             (Sample.brokenStore None) Sample.loaded)))
             (ErrorObject (str "Firestore: permission denied")) eq_refl).
Defined.

(** X14: choosing a file reads it once for the preview and never touches
    the list or the store; a readable file becomes the preview, no file
    clears it, and a file that cannot be read leaves the earlier preview in
    place. *)
Theorem preview_follows_the_chosen_file :
  forall env files st,
    let st' := exec (onImageChange env files) st in
    thumbnails st' = thumbnails st
    /\ storeCalls st' = storeCalls st
    /\ (forall file rest result,
          files = Some (file :: rest) ->
          env_readAsDataURL env file = Some result ->
          imagePreview st' = Some result
          /\ fileReads st' = fileReads st ++ [file])
    /\ (forall file rest,
          files = Some (file :: rest) ->
          env_readAsDataURL env file = None ->
          imagePreview st' = imagePreview st)
    /\ (files = None \/ files = Some [] -> imagePreview st' = None).
Proof.
  intros env files st st'. subst st'. unfold onImageChange.
  destruct files as [[|file rest]|]; run_handler.
  - repeat split; try reflexivity; intros; discriminate.
  - destruct (env_readAsDataURL env file) as [result|] eqn:Hread;
      cbn [fst snd];
      (split; [reflexivity|]); (split; [reflexivity|]); split; [|split| |split].
    + intros f r res Hf Hr. inversion Hf; subst.
      rewrite Hread in Hr. inversion Hr; subst. split; reflexivity.
    + intros f r Hf Hr. inversion Hf; subst. congruence.
    + intros [H|H]; discriminate.
    + intros f r res Hf Hr. inversion Hf; subst. congruence.
    + intros f r Hf Hr. reflexivity.
    + intros [H|H]; discriminate.
  - repeat split; try reflexivity; intros; discriminate.
Qed.

Lemma preview_follows_the_chosen_file_witness :
  let shown :=
    mkState [] true false None (Some Sample.pngUrl) false 0 [] [] [] in
  imagePreview
    (exec (onImageChange (Sample.store (Some Sample.pngUrl))
             (Some [Sample.photo])) initialState)
  = Some Sample.pngUrl
  /\ imagePreview
       (exec (onImageChange (Sample.store None) (Some [Sample.photo])) shown)
     = imagePreview shown.
Proof.
  intros shown. split.
  - apply (proj1 (proj2 (proj2 (preview_follows_the_chosen_file
             (Sample.store (Some Sample.pngUrl)) (Some [Sample.photo])
             initialState)))
             Sample.photo [] Sample.pngUrl eq_refl eq_refl).
  - apply (proj1 (proj2 (proj2 (proj2 (preview_follows_the_chosen_file
             (Sample.store None) (Some [Sample.photo]) shown))))
             Sample.photo [] eq_refl eq_refl).
Defined.

(* ===================================================================== *)
(** ** What every event keeps *)
(* ===================================================================== *)

Lemma accepted_upload_has_one_file (raw : UploadInput) (values : UploadValues) :
  uploadSchema raw = inr values -> exists file, u_image values = Some [file].
Proof.
  intros H. apply uploadSchema_inr in H.
  destruct H as (_ & _ & Hp & _ & _ & Hi). rewrite Hi.
  apply imageIsPresent_one. exact Hp.
Qed.

(** All the ways an event can go, one goal each, with the state computed. *)
Ltac event_cases env ev st :=
  destruct ev as [| open | files | raw | thumbnail | open | raw | thumbnail];
  cbn [handleEvent]; try unfold exec;
  try unfold submitUploadForm; try unfold submitEditForm;
  try unfold clickDelete; cbv beta;
  [ unfold fetchThumbnails; run_handler;
    destruct (env_getDocs env) as [?error|?fetched] eqn:?Hdocs
  | destruct open; [|unfold handleUploadDialogClose]; run_handler
  | unfold onImageChange; destruct files as [[|?file ?rest]|]; run_handler;
    [ | match goal with
      | |- context [env_readAsDataURL env ?f] =>
          destruct (env_readAsDataURL env f) as [?result|] eqn:?Hread
      end | ]
  | unfold handleSubmit;
    destruct (uploadSchema raw) as [?issues|?values] eqn:?Hschema;
    [ run_handler
    | let file := fresh "file" in
      let Hv := fresh "Hv" in
      destruct (accepted_upload_has_one_file _ _ Hschema) as [file Hv];
      unfold onUploadSubmit; rewrite Hv; cbn [nth_error]; run_handler;
      destruct (env_readAsDataURL env file) as [?url|] eqn:?Hread;
      cbn [fst snd];
      [ match goal with
        | |- context [getByteLength ?u >? MAX_DOC_SIZE_BYTES] =>
            destruct (getByteLength u >? MAX_DOC_SIZE_BYTES) eqn:?Hgt
        end;
        cbn [fst snd];
        [ | match goal with
          | |- context [env_addDoc env ?d] =>
              destruct (env_addDoc env d) as [?error|?docRefId] eqn:?Hadd
          end ]
      | ] ]
  | unfold handleEditDialogOpen; run_handler
  | destruct open; [|unfold handleEditDialogClose]; run_handler
  | unfold handleSubmit;
    destruct (editSchema raw) as [?issues|?values] eqn:?Hschema;
    [ run_handler
    | unfold onEditSubmit;
      destruct (editingThumbnail st) as [?editing|] eqn:?Hediting;
      [ run_handler;
        match goal with
        | |- context [env_updateDoc env ?a ?b ?c] =>
            destruct (env_updateDoc env a b c) as [?error|[]] eqn:?Hupdate
        end
      | run_handler ] ]
  | unfold handleDelete; run_handler;
    match goal with
    | |- context [env_deleteDoc env ?a] =>
        destruct (env_deleteDoc env a) as [?error|[]] eqn:?Hdelete
    end ];
  cbn [fst snd thumbnails isUploadDialogOpen isEditDialogOpen editingThumbnail
       imagePreview isUploading uploadProgress toasts storeCalls fileReads].

(** X15: no handler lets an exception escape, and after every event the
    uploading flag is off and the progress is 0 if they were so before: in
    particular after a whole session started from the initial state. *)
Theorem handlers_complete_and_leave_the_page_idle :
  forall toLowerCase session env ev st,
    completes (handleEvent toLowerCase env ev) st = true
    /\ (isUploading st = false /\ uploadProgress st = 0 ->
        isUploading (exec (handleEvent toLowerCase env ev) st) = false
        /\ uploadProgress (exec (handleEvent toLowerCase env ev) st) = 0)
    /\ isUploading (run toLowerCase session initialState) = false
    /\ uploadProgress (run toLowerCase session initialState) = 0.
Proof.
  intros lower session env ev st.
  assert (Hstep : forall env ev st,
             isUploading st = false /\ uploadProgress st = 0 ->
             isUploading (exec (handleEvent lower env ev) st) = false
             /\ uploadProgress (exec (handleEvent lower env ev) st) = 0).
  { clear. intros env ev st Hidle. event_cases env ev st;
      first [exact Hidle | split; reflexivity]. }
  split; [|split; [apply Hstep|]].
  - unfold completes. event_cases env ev st; reflexivity.
  - assert (Hrun : forall session st,
               isUploading st = false /\ uploadProgress st = 0 ->
               isUploading (run lower session st) = false
               /\ uploadProgress (run lower session st) = 0).
    { clear - Hstep. induction session as [|[env ev] session IH]; intros st H;
        [exact H|].
      cbn [run fold_left fst snd]. apply IH. apply Hstep. exact H. }
    apply Hrun. split; reflexivity.
Qed.

(** X16: every event sends at most one request to the store, and the list
    changes only in an event whose request the store acknowledged: when no
    request is sent, or when the request is rejected, the list is as
    before, so the list is never updated ahead of the store's answer. Over
    a session the trace grows by at most one request per event. *)
Theorem list_changes_only_after_an_acknowledgement :
  forall toLowerCase session env ev st,
    let st' := exec (handleEvent toLowerCase env ev) st in
    ((storeCalls st' = storeCalls st /\ thumbnails st' = thumbnails st)
     \/ exists call,
          storeCalls st' = storeCalls st ++ [call]
          /\ (acknowledged env call = false ->
              thumbnails st' = thumbnails st))
    /\ (List.length (storeCalls (run toLowerCase session st))
        <= List.length (storeCalls st) + List.length session)%nat.
Proof.
  intros lower session env ev st st'. subst st'.
  assert (Hstep : forall env ev st,
             (storeCalls (exec (handleEvent lower env ev) st) = storeCalls st
              /\ thumbnails (exec (handleEvent lower env ev) st)
                 = thumbnails st)
             \/ exists call,
                  storeCalls (exec (handleEvent lower env ev) st)
                  = storeCalls st ++ [call]
                  /\ (acknowledged env call = false ->
                      thumbnails (exec (handleEvent lower env ev) st)
                      = thumbnails st)).
  { clear. intros env ev st.
    event_cases env ev st;
      first
        [ left; split; reflexivity
        | right; eexists; split; [reflexivity|];
          intros Hack; cbn [acknowledged] in Hack;
          first
            [ reflexivity
            | match goal with
              | H : _ = inr _ |- _ => rewrite H in Hack
              end; discriminate Hack ] ]. }
  split; [apply Hstep|].
  clear - Hstep. revert st.
  induction session as [|[env ev] session IH]; intros st;
    cbn [run fold_left fst snd List.length]; [lia|].
  specialize (IH (exec (handleEvent lower env ev) st)).
  unfold run in IH.
  destruct (Hstep env ev st) as [[H _]|[call [H _]]]; rewrite H in IH;
    [|rewrite length_app in IH; cbn [List.length] in IH]; lia.
Qed.

(** A rejected delete and an acknowledged one, side by side. *)
Example acknowledgement_sample :
  thumbnails
    (exec (handleEvent Sample.asciiLowerCase (Sample.brokenStore None)
             (DeleteConfirmed Sample.t2)) Sample.loaded)
  = thumbnails Sample.loaded
  /\ thumbnails
       (exec (handleEvent Sample.asciiLowerCase (Sample.store None)
                (DeleteConfirmed Sample.t2)) Sample.loaded)
     = [Sample.t3; Sample.t1].
Proof. vm_compute. split; reflexivity. Qed.

Lemma newestFirst_filter (p : Thumbnail -> bool) (l : list Thumbnail) :
  newestFirst l -> newestFirst (filter p l).
Proof.
  unfold newestFirst. induction 1 as [|a l Hl IH Ha]; cbn [filter];
    [constructor|].
  destruct (p a); [|exact IH]. constructor; [exact IH|].
  apply Forall_forall. intros x Hx. apply filter_In in Hx.
  rewrite Forall_forall in Ha. apply Ha. tauto.
Qed.

Lemma newestFirst_map (f : Thumbnail -> Thumbnail) (l : list Thumbnail) :
  (forall t, createdAt (f t) = createdAt t) ->
  newestFirst l -> newestFirst (map f l).
Proof.
  unfold newestFirst. intros Hf. induction 1 as [|a l Hl IH Ha]; cbn [map];
    [constructor|].
  constructor; [exact IH|]. apply Forall_forall. intros x Hx.
  apply in_map_iff in Hx. destruct Hx as (y & <- & Hy).
  rewrite !Hf. rewrite Forall_forall in Ha. apply Ha. exact Hy.
Qed.

(** X17: the newest-first order of the list is kept by every event, as long
    as the store answers queries newest first and the clock is not behind
    the creation time of a record already held. *)
Theorem every_event_keeps_newest_first :
  forall toLowerCase env ev st,
    newestFirst (thumbnails st) ->
    (forall fetched, env_getDocs env = inr fetched -> newestFirst fetched) ->
    Forall (fun t => createdAt t <= env_now env) (thumbnails st) ->
    newestFirst (thumbnails (exec (handleEvent toLowerCase env ev) st)).
Proof.
  intros lower env ev st Hsorted Hfetch Hclock.
  event_cases env ev st; try exact Hsorted.
  - apply Hfetch. reflexivity.
  - constructor; [exact Hsorted | exact Hclock].
  - apply newestFirst_map; [|exact Hsorted].
    intros t. destruct (Js.eqb (id t) (id editing)); reflexivity.
  - apply newestFirst_filter. exact Hsorted.
Qed.

Lemma every_event_keeps_newest_first_witness :
  newestFirst
    (thumbnails
       (exec (handleEvent Sample.asciiLowerCase
                (Sample.store (Some Sample.pngUrl))
                (UploadSubmitted Sample.upload))
          Sample.loaded)).
Proof.
  apply (every_event_keeps_newest_first Sample.asciiLowerCase
           (Sample.store (Some Sample.pngUrl)) (UploadSubmitted Sample.upload)
           Sample.loaded).
  - unfold newestFirst. cbn [thumbnails Sample.loaded].
    repeat (constructor; [|repeat (constructor; [vm_compute; discriminate|]);
                           try constructor]).
    constructor.
  - intros fetched H. inversion H. constructor.
  - cbn [thumbnails Sample.loaded].
    repeat (constructor; [vm_compute; discriminate|]). constructor.
Defined.

Lemma distinctIds_filter (p : Thumbnail -> bool) (l : list Thumbnail) :
  distinctIds l -> distinctIds (filter p l).
Proof.
  unfold distinctIds. induction l as [|a l IH]; intros H; [exact H|].
  cbn [map] in H. inversion H as [|? ? Ha Hl]; subst. cbn [filter].
  destruct (p a); [|apply IH; exact Hl].
  cbn [map]. constructor; [|apply IH; exact Hl].
  intros Hin. apply Ha. apply in_map_iff in Hin.
  destruct Hin as (x & Hx & Hin). apply filter_In in Hin.
  rewrite <- Hx. apply in_map. tauto.
Qed.

(** X18: the ids of the list stay distinct through every event, as long as
    the store answers queries with distinct ids and gives a new document an
    id that no held record has. *)
Theorem every_event_keeps_ids_distinct :
  forall toLowerCase env ev st,
    distinctIds (thumbnails st) ->
    (forall fetched, env_getDocs env = inr fetched -> distinctIds fetched) ->
    (forall data docRefId,
       env_addDoc env data = inr docRefId ->
       ~ In docRefId (map id (thumbnails st))) ->
    distinctIds (thumbnails (exec (handleEvent toLowerCase env ev) st)).
Proof.
  intros lower env ev st Hnd Hfetch Hfresh.
  event_cases env ev st; try exact Hnd.
  - apply Hfetch. reflexivity.
  - unfold distinctIds. cbn [map id]. constructor; [|exact Hnd].
    exact (Hfresh _ _ Hadd).
  - unfold distinctIds. rewrite map_map.
    erewrite map_ext; [exact Hnd|].
    intros t. cbv beta. destruct (Js.eqb (id t) (id editing)); reflexivity.
  - apply distinctIds_filter. exact Hnd.
Qed.

Lemma every_event_keeps_ids_distinct_witness :
  distinctIds
    (thumbnails
       (exec (handleEvent Sample.asciiLowerCase
                (Sample.store (Some Sample.pngUrl))
                (UploadSubmitted Sample.upload))
          Sample.loaded)).
Proof.
  apply (every_event_keeps_ids_distinct Sample.asciiLowerCase
           (Sample.store (Some Sample.pngUrl)) (UploadSubmitted Sample.upload)
           Sample.loaded).
  - unfold distinctIds. vm_compute.
    repeat (constructor;
            [intros H; repeat (destruct H as [H|H]; [discriminate|]); exact H|]).
    constructor.
  - intros fetched H. inversion H. constructor.
  - intros data docRefId H. inversion H; subst. vm_compute.
    intros Hin. repeat (destruct Hin as [Hin|Hin]; [discriminate|]). exact Hin.
Defined.

(** X19: the edit dialog is open exactly when a record is being edited:
    every event keeps this, so it holds all along a session started from
    the initial state. *)
Theorem edit_dialog_stays_consistent :
  forall toLowerCase session env ev st,
    (editDialogConsistent st ->
     editDialogConsistent (exec (handleEvent toLowerCase env ev) st))
    /\ editDialogConsistent (run toLowerCase session initialState).
Proof.
  intros lower session env ev st.
  assert (Hstep : forall env ev st,
             editDialogConsistent st ->
             editDialogConsistent (exec (handleEvent lower env ev) st)).
  { clear. intros env ev st H. unfold editDialogConsistent in *.
    event_cases env ev st; try exact H;
      try (match goal with
           | E : editingThumbnail _ = _ |- _ => rewrite E
           end; exact H);
      split; intros H'; try discriminate H'; try reflexivity;
      try discriminate; try (exfalso; apply H'; reflexivity). }
  split; [apply Hstep|].
  assert (Hrun : forall session st,
             editDialogConsistent st ->
             editDialogConsistent (run lower session st)).
  { clear - Hstep. induction session as [|[env ev] session IH]; intros st H;
      [exact H|].
    cbn [run fold_left fst snd]. apply IH. apply Hstep. exact H. }
  apply Hrun. unfold editDialogConsistent. cbn.
  split; [discriminate | intros H; exfalso; apply H; reflexivity].
Qed.

(** X25: the list a create writes is built from the list of the render its
    handler belongs to, not from the current one: when a record has been
    deleted since that render, the acknowledged create puts it back in the
    list. *)
Theorem create_from_an_earlier_render_undoes_a_delete :
  forall toLowerCase env st thumbnail values file rest imageDataUrl docRefId,
    In thumbnail (thumbnails st) ->
    env_deleteDoc env (id thumbnail) = inr tt ->
    u_image values = Some (file :: rest) ->
    env_readAsDataURL env file = Some imageDataUrl ->
    getByteLength imageDataUrl <= MAX_DOC_SIZE_BYTES ->
    env_addDoc env
      (mkNewThumbnailData (u_title values) (u_category values) imageDataUrl
         (env_now env)) = inr docRefId ->
    let deleted := exec (clickDelete env thumbnail) st in
    let created :=
      exec (onUploadSubmit toLowerCase env (thumbnails st) values) deleted in
    ~ In thumbnail (thumbnails deleted)
    /\ thumbnails created
       = mkThumbnail docRefId (u_title values) (u_category values)
           imageDataUrl (env_now env) :: thumbnails st
    /\ In thumbnail (thumbnails created).
Proof.
  intros lower env st t values file rest url docId Hin Hdel Hv Hread Hsize
    Hadd deleted created. subst created deleted.
  rewrite (acknowledged_create_prepends_to_the_render_list lower env
             (thumbnails st) _ values file rest url docId Hv Hread Hsize Hadd).
  split; [|split; [reflexivity | right; exact Hin]].
  change (exec (clickDelete env t) st)
    with (exec (handleDelete env (thumbnails st) (id t) (title t)) st).
  rewrite (delete_filters_by_id _ _ _ _ _ Hdel).
  intros H. apply filter_In in H. destruct H as [_ H].
  rewrite JsFacts.eqb_refl in H. discriminate.
Qed.

Lemma create_from_an_earlier_render_undoes_a_delete_witness :
  let env := Sample.store (Some Sample.pngUrl) in
  let deleted := exec (clickDelete env Sample.t2) Sample.loaded in
  let created :=
    exec (onUploadSubmit Sample.asciiLowerCase env (thumbnails Sample.loaded)
            Sample.values) deleted in
  ~ In Sample.t2 (thumbnails deleted)
  /\ thumbnails created
     = mkThumbnail (str "doc4") (u_title Sample.values)
         (u_category Sample.values) Sample.pngUrl (env_now env)
         :: thumbnails Sample.loaded
  /\ In Sample.t2 (thumbnails created).
Proof.
  apply (create_from_an_earlier_render_undoes_a_delete Sample.asciiLowerCase
           (Sample.store (Some Sample.pngUrl)) Sample.loaded Sample.t2
           Sample.values Sample.photo [] Sample.pngUrl (str "doc4")).
  - right. left. reflexivity.
  - reflexivity.
  - reflexivity.
  - reflexivity.
  - vm_compute. discriminate.
  - reflexivity.
Defined.

(* ===================================================================== *)
(** ** The filtered view and the download name, further *)
(* ===================================================================== *)

(** X20: the filtered view is a selection of the list in the list's order:
    it holds exactly the records in the active category (any for All)
    whose lower-cased title includes the lower-cased search term, it is not
    longer than the list, and it is newest first and has distinct ids
    whenever the list is and has. *)
Theorem filtered_view_is_an_ordered_selection :
  forall toLowerCase thumbs activeCategory searchTerm,
    let view :=
      filteredThumbnails toLowerCase thumbs activeCategory searchTerm in
    (forall t,
       In t view
       <-> In t thumbs
           /\ (activeCategory = str "All" \/ category t = activeCategory)
           /\ Js.includes (toLowerCase (title t)) (toLowerCase searchTerm)
              = true)
    /\ (List.length view <= List.length thumbs)%nat
    /\ (newestFirst thumbs -> newestFirst view)
    /\ (distinctIds thumbs -> distinctIds view).
Proof.
  intros lower thumbs cat term view. subst view.
  split; [intros t; apply filteredThumbnails_In|].
  unfold filteredThumbnails. split; [|split].
  - etransitivity; [apply filter_length_le | apply filter_length_le].
  - intros H. apply newestFirst_filter, newestFirst_filter, H.
  - intros H. apply distinctIds_filter, distinctIds_filter, H.
Qed.

Lemma beforeFirst_In (c x : Z) (s : jsstring) :
  In x (DownloadSpec.beforeFirst c s) -> In x s /\ x <> c.
Proof.
  induction s as [|y r IH]; cbn [DownloadSpec.beforeFirst]; [intros []|].
  destruct (y =? c) eqn:E; [intros []|]. apply Z.eqb_neq in E.
  intros [<-|H]; [split; [left; reflexivity | exact E]|].
  destruct (IH H). split; [right; assumption | assumption].
Qed.

Lemma afterFirst_In (c x : Z) (s r : jsstring) :
  DownloadSpec.afterFirst c s = Some r -> In x r -> In x s.
Proof.
  induction s as [|y s IH]; cbn [DownloadSpec.afterFirst]; [discriminate|].
  destruct (y =? c).
  - intros H Hx. inversion H; subst. right. exact Hx.
  - intros H Hx. right. apply IH; assumption.
Qed.

(** X21: whatever the image URL is, the extension of the download is never
    empty and contains neither a ['/'] nor a [';']; when the part of the URL
    before its first [';'] has no ['/'] the extension is png. *)
Theorem extension_is_a_plain_word :
  forall imageUrl : jsstring,
    extension imageUrl <> []
    /\ ~ In DownloadSpec.slash (extension imageUrl)
    /\ ~ In DownloadSpec.semicolon (extension imageUrl)
    /\ (~ In DownloadSpec.slash
          (DownloadSpec.beforeFirst DownloadSpec.semicolon imageUrl) ->
        extension imageUrl = str "png").
Proof.
  intros imageUrl. rewrite DownloadFacts.extension_unfolded.
  set (head := DownloadSpec.beforeFirst DownloadSpec.semicolon imageUrl).
  assert (Hpng : str "png" <> []
                 /\ ~ In DownloadSpec.slash (str "png")
                 /\ ~ In DownloadSpec.semicolon (str "png")).
  { split; [discriminate|].
    split; intros H; vm_compute in H;
      repeat (destruct H as [H|H]; [discriminate|]); exact H. }
  destruct (DownloadSpec.afterFirst DownloadSpec.slash head) as [sub|] eqn:E;
    cbn [option_map orElse].
  - destruct (DownloadSpec.beforeFirst DownloadSpec.slash sub) as [|c w] eqn:Ew.
    + destruct Hpng as (H1 & H2 & H3).
      split; [exact H1|]. split; [exact H2|]. split; [exact H3|].
      intros _. reflexivity.
    + split; [discriminate|]. rewrite <- Ew. split; [|split].
      * intros H. apply beforeFirst_In in H. destruct H as [_ H].
        apply H. reflexivity.
      * intros H. apply beforeFirst_In in H. destruct H as [H _].
        apply (afterFirst_In _ _ _ _ E) in H.
        apply beforeFirst_In in H. destruct H as [_ H]. apply H. reflexivity.
      * intros Hno. exfalso. apply Hno.
        clear - E. induction head as [|y s IH];
          cbn [DownloadSpec.afterFirst] in E; [discriminate|].
        destruct (y =? DownloadSpec.slash) eqn:Ey.
        -- left. apply Z.eqb_eq. exact Ey.
        -- right. apply IH. exact E.
  - destruct Hpng as (H1 & H2 & H3).
    split; [exact H1|]. split; [exact H2|]. split; [exact H3|].
    intros _. reflexivity.
Qed.

Lemma replaceWsFrom_facts (b : bool) (s : jsstring) :
  Forall (fun c => Js.isWhiteSpace c = false)
    (Js.replaceWsFrom b (str "_") s)
  /\ (List.length (Js.replaceWsFrom b (str "_") s) <= List.length s)%nat
  /\ (Forall (fun c => Js.isWhiteSpace c = false) s ->
      Js.replaceWsFrom b (str "_") s = s).
Proof.
  revert b. induction s as [|c s IH]; intros b; cbn [Js.replaceWsFrom].
  - repeat split; auto.
  - destruct (Js.isWhiteSpace c) eqn:W.
    + destruct (IH true) as (Hf & Hl & _). split; [|split].
      * destruct b; cbn [app]; [exact Hf|].
        change (str "_") with [95]. cbn [app]. constructor; [reflexivity|exact Hf].
      * destruct b; [cbn [app List.length]; lia|].
        change (str "_") with [95] in *. cbn [app List.length]. lia.
      * intros H. inversion H; subst. congruence.
    + destruct (IH false) as (Hf & Hl & Hid). split; [|split].
      * constructor; assumption.
      * cbn [List.length]. lia.
      * intros H. inversion H; subst. rewrite Hid; auto.
Qed.

(** X22: the title part of a download name never contains white space, is
    never longer than the title, and is the title itself when the title has
    no white space; the name is that part, a dot, and the extension. *)
Theorem download_name_has_no_white_space_from_the_title :
  forall imageUrl title,
    exists stem,
      download (handleDownload imageUrl title)
      = stem ++ str "." ++ extension imageUrl
      /\ Forall (fun c => Js.isWhiteSpace c = false) stem
      /\ (List.length stem <= List.length title)%nat
      /\ (Forall (fun c => Js.isWhiteSpace c = false) title -> stem = title).
Proof.
  intros imageUrl title.
  exists (Js.replaceWhiteSpaceRuns title (str "_")).
  split; [reflexivity|]. apply replaceWsFrom_facts.
Qed.

(* ===================================================================== *)
(** ** The critique flow, further *)
(* ===================================================================== *)

Module CritiqueMore.
Import Critique.

Lemma score_Some (v : option JsValue) (q : Q) :
  score v = Some q
  <-> v = Some (JNumber q) /\ (0 <= q)%Q /\ (q <= inject_Z 100)%Q.
Proof.
  unfold score. destruct v as [[| | n | | |]|];
    try (split; [discriminate | intros [H _]; discriminate]).
  destruct (Qle_bool 0 n && Qle_bool n (inject_Z 100)) eqn:E.
  - apply andb_true_iff in E. destruct E as [E1 E2].
    apply Qle_bool_iff in E1, E2. split.
    + intros H; inversion H; subst. auto.
    + intros [H _]. inversion H; subst. reflexivity.
  - split; [discriminate|]. intros (H & H1 & H2). inversion H; subst.
    apply Qle_bool_iff in H1, H2. rewrite H1, H2 in E. discriminate.
Qed.

Lemma zString_Some (v : option JsValue) (s : jsstring) :
  zString v = Some s <-> v = Some (JString s).
Proof.
  unfold zString. destruct v as [[| | | t | |]|];
    split; try discriminate; intros H; inversion H; reflexivity.
Qed.

Lemma stringItems_Some (items : list JsValue) (ss : list jsstring) :
  stringItems items = Some ss <-> items = map JString ss.
Proof.
  revert ss. induction items as [|v rest IH]; intros ss.
  - destruct ss; cbn; split; try discriminate; reflexivity.
  - cbn [stringItems].
    destruct (zString (Some v)) as [s|] eqn:Ev.
    + apply zString_Some in Ev. inversion Ev; subst.
      destruct (stringItems rest) as [ss'|] eqn:Er.
      * split.
        -- intros H; inversion H; subst. cbn [map]. f_equal.
           apply IH. reflexivity.
        -- destruct ss as [|s0 ss0]; cbn [map]; intros H; inversion H; subst.
           f_equal. f_equal. assert (E : Some ss' = Some ss0)
             by (apply IH; reflexivity). inversion E. reflexivity.
      * split; [discriminate|].
        destruct ss as [|s0 ss0]; cbn [map]; intros H; inversion H; subst.
        assert (E : None = Some ss0) by (apply IH; reflexivity).
        discriminate.
    + split; [discriminate|].
      destruct ss as [|s0 ss0]; cbn [map]; intros H; inversion H; subst.
      cbn in Ev. discriminate.
Qed.

Lemma zArrayOfString_Some (v : option JsValue) (ss : list jsstring) :
  zArrayOfString v = Some ss <-> v = Some (JArray (map JString ss)).
Proof.
  unfold zArrayOfString. destruct v as [[| | | | items |]|];
    try (split; [discriminate | intros H; discriminate]).
  rewrite stringItems_Some. split; [intros ->; reflexivity|].
  intros H; inversion H; reflexivity.
Qed.

End CritiqueMore.

(** X23: the critique flow returns a result exactly when the model's answer
    is an object whose three score fields are numbers between 0 and 100,
    whose verdict is a string and whose suggestions are a list of strings;
    the result then carries those very values. A null answer, a score out
    of range or a missing field makes the flow fail. *)
Theorem critique_succeeds_exactly_on_well_formed_answers :
  forall prompt imageDataUri output,
    Critique.critiqueThumbnail prompt imageDataUri = Some output
    <-> exists fields,
          prompt imageDataUri = Some (Critique.JObject fields)
          /\ Critique.getField fields (str "engagementScore")
             = Some (Critique.JNumber (Critique.engagementScore output))
          /\ Critique.getField fields (str "clarityScore")
             = Some (Critique.JNumber (Critique.clarityScore output))
          /\ Critique.getField fields (str "colorScore")
             = Some (Critique.JNumber (Critique.colorScore output))
          /\ (0 <= Critique.engagementScore output <= inject_Z 100)%Q
          /\ (0 <= Critique.clarityScore output <= inject_Z 100)%Q
          /\ (0 <= Critique.colorScore output <= inject_Z 100)%Q
          /\ Critique.getField fields (str "overallVerdict")
             = Some (Critique.JString (Critique.overallVerdict output))
          /\ Critique.getField fields (str "suggestions")
             = Some (Critique.JArray
                       (map Critique.JString (Critique.suggestions output))).
Proof.
  intros prompt uri output.
  unfold Critique.critiqueThumbnail, Critique.critiqueThumbnailFlow,
    Critique.CritiqueThumbnailOutputSchema.
  split.
  - destruct (prompt uri) as [[| | | | | fields]|]; try discriminate.
    destruct (Critique.score _) as [e|] eqn:He; [|discriminate].
    destruct (Critique.score (Critique.getField fields (str "clarityScore")))
      as [c|] eqn:Hc; [|discriminate].
    destruct (Critique.score (Critique.getField fields (str "colorScore")))
      as [k|] eqn:Hk; [|discriminate].
    destruct (Critique.zString _) as [o|] eqn:Ho; [|discriminate].
    destruct (Critique.zArrayOfString _) as [s|] eqn:Hs; [|discriminate].
    intros H; inversion H; subst; clear H.
    cbn [Critique.engagementScore Critique.clarityScore Critique.colorScore
         Critique.overallVerdict Critique.suggestions].
    apply CritiqueMore.score_Some in He, Hc, Hk.
    apply CritiqueMore.zString_Some in Ho.
    apply CritiqueMore.zArrayOfString_Some in Hs.
    exists fields. intuition.
  - intros (fields & -> & He & Hc & Hk & Re & Rc & Rk & Ho & Hs).
    assert (Se : Critique.score
                   (Critique.getField fields (str "engagementScore"))
                 = Some (Critique.engagementScore output))
      by (apply CritiqueMore.score_Some; tauto).
    assert (Sc : Critique.score
                   (Critique.getField fields (str "clarityScore"))
                 = Some (Critique.clarityScore output))
      by (apply CritiqueMore.score_Some; tauto).
    assert (Sk : Critique.score
                   (Critique.getField fields (str "colorScore"))
                 = Some (Critique.colorScore output))
      by (apply CritiqueMore.score_Some; tauto).
    rewrite Se, Sc, Sk.
    rewrite (proj2 (CritiqueMore.zString_Some _ _) Ho).
    rewrite (proj2 (CritiqueMore.zArrayOfString_Some _ _) Hs).
    destruct output; reflexivity.
Qed.

(* ===================================================================== *)
(** ** The page with local data *)
(* ===================================================================== *)

(** X24: in the version of the page with local data, where a new record
    takes the id [thumbnails.length + 1], the ids of the list stay distinct
    and within 1 .. length after any number of submissions, and each
    submission makes the list one longer. *)
Theorem local_ids_stay_distinct :
  forall submissions : list LocalPage.Values,
    let l :=
      LocalPage.thumbnails
        (LocalPage.submitAll submissions LocalPage.initialState) in
    NoDup (map LocalPage.id l)
    /\ Forall (fun t => 1 <= LocalPage.id t <= Z.of_nat (List.length l)) l
    /\ List.length l = (8 + List.length submissions)%nat.
Proof.
  intros submissions l. subst l.
  assert (Hinv : forall submissions st,
             NoDup (map LocalPage.id (LocalPage.thumbnails st)) ->
             Forall (fun t => 1 <= LocalPage.id t
                              <= Z.of_nat (List.length (LocalPage.thumbnails st)))
               (LocalPage.thumbnails st) ->
             let l := LocalPage.thumbnails (LocalPage.submitAll submissions st) in
             NoDup (map LocalPage.id l)
             /\ Forall (fun t => 1 <= LocalPage.id t
                                 <= Z.of_nat (List.length l)) l
             /\ List.length l
                = (List.length (LocalPage.thumbnails st)
                   + List.length submissions)%nat).
  { clear. induction submissions as [|values submissions IH];
      intros st Hnd Hb; cbn zeta.
    - cbn. repeat split; auto.
    - cbn [LocalPage.submitAll fold_left].
      specialize (IH (LocalPage.onSubmit values st)).
      cbn [LocalPage.onSubmit LocalPage.thumbnails] in IH.
      unfold LocalPage.submitAll in IH. cbn zeta in IH.
      destruct IH as (H1 & H2 & H3).
      + cbn [map LocalPage.id]. constructor; [|exact Hnd].
        intros Hin. apply in_map_iff in Hin. destruct Hin as (t & Ht & Hin).
        rewrite Forall_forall in Hb. specialize (Hb t Hin). lia.
      + constructor.
        * cbn [LocalPage.id List.length]. lia.
        * eapply Forall_impl; [|exact Hb]. cbn [List.length].
          intros t Ht. cbv beta in *. lia.
      + repeat split; auto. rewrite H3. cbn [List.length]. lia. }
  apply (Hinv submissions LocalPage.initialState).
  - vm_compute.
    repeat (constructor;
            [intros H; repeat (destruct H as [H|H]; [discriminate|]); exact H|]).
    constructor.
  - cbn [LocalPage.thumbnails LocalPage.initialState].
    unfold LocalPage.initialThumbnails.
    repeat (constructor; [cbn; lia|]). constructor.
Qed.

(* ===================================================================== *)
(** ** Categories, through the page *)
(* ===================================================================== *)

Lemma selectItems_enumerated : selectItems = enumeratedCategories.
Proof. reflexivity. Qed.



Lemma picked_item_is_enumerated (item : nat) (cat : jsstring) :
  nth_error selectItems item = Some cat -> In cat enumeratedCategories.
Proof.
  intros H. rewrite <- selectItems_enumerated. exact (nth_error_In _ _ H).
Qed.





(** The sample of use, evaluated: one create as Vlog, then one update of
    the second card to Tech. *)
Example sample_use_persists :
  let page :=
    usePage Sample.asciiLowerCase sampleUse (initialForms, initialState) in
  persistedCategories (storeCalls (snd page)) = [str "Vlog"; str "Tech"]
  /\ map category (thumbnails (snd page))
     = [str "Vlog"; str "Tech"; str "Cooking"; str "Gaming"]
  /\ List.length (storeCalls (snd page)) = 3%nat.
Proof. vm_compute. repeat split; reflexivity. Qed.

Lemma event_keeps_created_enumerated :
  forall toLowerCase env ev st,
    (forall raw, ev = UploadSubmitted raw ->
                 enumeratedOrMissing (in_category raw)) ->
    Forall (fun c => In c enumeratedCategories)
      (createdCategories (storeCalls st)) ->
    Forall (fun c => In c enumeratedCategories)
      (createdCategories
         (storeCalls (exec (handleEvent toLowerCase env ev) st))).
Proof.
  intros lower env ev st Hev Hsent.
  event_cases env ev st; unfold createdCategories in *;
    rewrite ?flat_map_app; cbn [flat_map app]; rewrite ?app_nil_r;
    try exact Hsent;
    (apply Forall_app; split; [exact Hsent|]); (constructor; [|constructor]);
    cbn [d_category];
    match goal with
    | H : uploadSchema ?raw = inr ?values |- _ =>
        apply uploadSchema_inr in H; destruct H as (_ & Hcat & _);
        specialize (Hev raw eq_refl); rewrite Hcat in Hev; exact Hev
    end.
Qed.

(** X26: whatever the store answers, every record a create sends to the
    store has a category of the fixed set: the upload form's category is
    written by its select only. *)
Theorem created_categories_are_enumerated :
  forall toLowerCase actions,
    Forall (fun c => In c enumeratedCategories)
      (createdCategories
         (storeCalls
            (snd (usePage toLowerCase actions (initialForms, initialState))))).
Proof.
  intros lower actions.
  assert (Hrun : forall actions page,
             enumeratedOrMissing (upload_category (fst page)) ->
             Forall (fun c => In c enumeratedCategories)
               (createdCategories (storeCalls (snd page))) ->
             Forall (fun c => In c enumeratedCategories)
               (createdCategories
                  (storeCalls (snd (usePage lower actions page))))).
  { clear. induction actions as [|[env action] actions IH];
      intros [f st] Hu Hsent; [exact Hsent|].
    cbn [fst snd] in Hu, Hsent. cbn [usePage fold_left fst snd].
    assert (Hev : forall ev,
               (forall raw, ev = UploadSubmitted raw ->
                            enumeratedOrMissing (in_category raw)) ->
               Forall (fun c => In c enumeratedCategories)
                 (createdCategories
                    (storeCalls (exec (handleEvent lower env ev) st)))).
    { intros ev Hc.
      exact (event_keeps_created_enumerated lower env ev st Hc Hsent). }
    assert (Hother : forall ev,
               (forall raw, ev <> UploadSubmitted raw) ->
               Forall (fun c => In c enumeratedCategories)
                 (createdCategories
                    (storeCalls (exec (handleEvent lower env ev) st)))).
    { intros ev Hne. apply Hev. intros raw E. destruct (Hne raw E). }
    destruct action as [| | | text | item | files | | card | text | item | |
                        | card]; cbn [perform];
      repeat match goal with
             | |- context [if ?b then _ else _] => destruct b eqn:?
             | |- context [match nth_error ?l ?i with _ => _ end] =>
                 destruct (nth_error l i) eqn:?
             | |- context [match isUploadDialogOpen ?s with _ => _ end] =>
                 destruct (isUploadDialogOpen s) eqn:?
             | |- context [match isEditDialogOpen ?s with _ => _ end] =>
                 destruct (isEditDialogOpen s) eqn:?
             end;
      apply IH; cbn [fst snd resetUploadForm resetEditForm resetEditFormTo
                     upload_category];
      try exact Hu; try exact Hsent; try exact I;
      try (apply Hother; intros raw; discriminate);
      try (eapply picked_item_is_enumerated; eassumption);
      try (apply Hev; intros raw E; inversion E; subst; exact Hu). }
  apply Hrun; cbn; constructor.
Qed.
